(** * oai-realtime: model registry, streaming response assembler, WAV output

    A shallow embedding of the Python sources

    - [models_config.py]  (environment-driven model discovery),
    - [app.py]  (receive loop with live playback, WAV file creation and
      display),
    - [streamlit.py]  (the same functions, and [generate_response],
      [create_ui] and [app]),
    - [script.py]  ([save_to_wav_file] and the whole of [text_in_audio_out]),

    together with the parts of the Python runtime they call
    ([str.replace], [base64.b64decode], [numpy.frombuffer], [struct.pack],
    [wave]).

    The two Streamlit programs differ in what the name [st] is bound to.
    [streamlit.py] has [import streamlit as st]: started with
    [streamlit run], [st] is the Streamlit library.  [app.py] has
    [import app as st]: [st] is the module [app] itself, which defines no
    [error], [empty], [subheader], ...; reading such an attribute raises
    [AttributeError], before the arguments of the call are evaluated.

    Conventions.  A Python [str] is a [string]; [bytes]/[bytearray] is a
    [list byte].  Characters outside ASCII are the bytes above 127 of the
    string.  Exceptions are values of [exception]; a function that may raise
    returns a sum, a function that performs observable calls returns the
    list of these calls ([event]) in program order. *)

From Stdlib Require Import List String Ascii ZArith NArith Lia Bool DecimalString.
From stdpp Require Import gmap strings.
Import ListNotations.

Local Open Scope string_scope.

Abbreviation byte := Byte.byte.

(** ** Python runtime *)

(** The exceptions that the modelled code can meet. *)
Inductive exception : Type :=
  | BinasciiError                  (* binascii.Error, from base64.b64decode *)
  | ValueError                     (* numpy.frombuffer, str.encode('ascii'), get_model_info *)
  | StructError                    (* struct.error, a header field out of range *)
  | WaveError                      (* wave.Error *)
  | FileNotFoundError              (* open() of a path that holds no file *)
  | AttributeError (attribute : string)  (* [st.attribute] where [st] has no such attribute *)
  | RecvError (info : string).     (* anything raised by [await client.recv()] *)

(** How a call ends: it returns, it raises, or it never comes back (an
    [await] on a session that delivers nothing more). *)
Inductive outcome (A : Type) : Type :=
  | Returns (a : A)
  | Raises (e : exception)
  | Blocks.
Arguments Returns {A} a.
Arguments Raises {A} e.
Arguments Blocks {A}.

(** Sequencing of calls that may raise. *)
Definition bind {A B : Type} (m : exception + A) (k : A -> exception + B) : exception + B :=
  match m with
  | inl e => inl e
  | inr a => k a
  end.

Notation "'let*' x ':=' m 'in' k" := (bind m (fun x => k))
  (at level 10, x pattern, m at level 100, k at level 200).

Definition byte_of_N (n : N) : byte := byte_of_ascii (ascii_of_N n).
Definition N_of_byte (b : byte) : N := N_of_ascii (ascii_of_byte b).

(** [bytes(s, 'latin-1')] for a literal: the bytes of an ASCII tag such as
    [b'RIFF']. *)
Definition bytes_of_string (s : string) : list byte :=
  List.map byte_of_ascii (list_ascii_of_string s).

(** [str(n)] for a non-negative integer. *)
Definition str_of_nat (n : nat) : string := NilZero.string_of_uint (Nat.to_uint n).

Module str.

(** [s.lower()] folds every cased character of Unicode; the registry
    below takes it as a function [lower] that is left open, so that what
    is proved of the registry holds of Python's.  [lower_ascii] is what
    [s.lower()] returns for a string of ASCII characters: the letters A..Z
    move to a..z, every other character is kept.  It stands for [lower]
    where a statement is evaluated on ASCII variable names. *)
Definition lower_char (c : ascii) : ascii :=
  let n := N_of_ascii c in
  if ((65 <=? n) && (n <=? 90))%N then ascii_of_N (n + 32) else c.

Fixpoint lower_ascii (s : string) : string :=
  match s with
  | EmptyString => EmptyString
  | String c s' => String (lower_char c) (lower_ascii s')
  end.

(** [s.startswith(p)]. *)
Definition startswith (s p : string) : bool := String.prefix p s.

(** [s.replace(old, new)] for a non-empty [old]: scanning from the left,
    every occurrence of [old] that does not overlap an earlier one is
    replaced.  [skip] counts the characters of the occurrence being
    replaced that are still to be passed over. *)
Fixpoint replace_from (old new s : string) (skip : nat) : string :=
  match s with
  | EmptyString => EmptyString
  | String c s' =>
      match skip with
      | S k => replace_from old new s' k
      | O =>
          if String.prefix old s
          then new ++ replace_from old new s' (String.length old - 1)
          else String c (replace_from old new s' 0)
      end
  end.

Definition replace (s old new : string) : string := replace_from old new s 0.

(** [old in s]. *)
Fixpoint contains (s old : string) : bool :=
  match s with
  | EmptyString => String.prefix old EmptyString
  | String _ s' => String.prefix old s || contains s' old
  end.

End str.

Module base64.

(** [binascii]'s decoding table: the value of a character of the base64
    alphabet, [None] for every other character. *)
Definition table_a2b_base64 (c : ascii) : option N :=
  let n := N_of_ascii c in
  if ((65 <=? n) && (n <=? 90))%N then Some (n - 65)%N
  else if ((97 <=? n) && (n <=? 122))%N then Some (n - 71)%N
  else if ((48 <=? n) && (n <=? 57))%N then Some (n + 4)%N
  else if (n =? 43)%N then Some 62%N
  else if (n =? 47)%N then Some 63%N
  else None.

(** [binascii.a2b_base64] with [strict_mode=False] (CPython 3.11): characters
    outside the alphabet are skipped, a pad sequence that completes a quad
    ends the decoding, an incomplete last quad is an error. *)
Fixpoint a2b_base64_from (s : string) (quad_pos : nat) (leftchar : N) (pads : nat)
    (bin_data : list byte) : exception + list byte :=
  match s with
  | EmptyString =>
      match quad_pos with
      | O => inr bin_data
      | _ => inl BinasciiError
      end
  | String c rest =>
      if Ascii.eqb c "="%char then
        if (2 <=? quad_pos)%nat then
          if (4 <=? quad_pos + S pads)%nat then inr bin_data
          else a2b_base64_from rest quad_pos leftchar (S pads) bin_data
        else a2b_base64_from rest quad_pos leftchar pads bin_data
      else
        match table_a2b_base64 c with
        | None => a2b_base64_from rest quad_pos leftchar pads bin_data
        | Some this_ch =>
            match quad_pos with
            | 0%nat => a2b_base64_from rest 1 this_ch 0 bin_data
            | 1%nat =>
                a2b_base64_from rest 2 (N.land this_ch 15) 0
                  (bin_data ++ [byte_of_N (N.lor (N.shiftl leftchar 2) (N.shiftr this_ch 4))])
            | 2%nat =>
                a2b_base64_from rest 3 (N.land this_ch 3) 0
                  (bin_data ++ [byte_of_N (N.lor (N.shiftl leftchar 4) (N.shiftr this_ch 2))])
            | _ =>
                a2b_base64_from rest 0 0%N 0
                  (bin_data ++ [byte_of_N (N.lor (N.shiftl leftchar 6) this_ch)])
            end
        end
  end.

Definition a2b_base64 (s : string) : exception + list byte :=
  a2b_base64_from s 0 0%N 0 [].

Definition is_ascii (c : ascii) : bool := (N_of_ascii c <? 128)%N.

(** [base64.b64decode(s)] for a [str] argument: the text is first encoded
    as ASCII ([ValueError] when it is not), then decoded leniently. *)
Definition b64decode (s : string) : exception + list byte :=
  if List.forallb is_ascii (list_ascii_of_string s) then a2b_base64 s
  else inl ValueError.

End base64.

Module np.

(** A little-endian 16-bit signed sample. *)
Definition int16_of_bytes (lo hi : byte) : Z :=
  let u := (Z.of_N (N_of_byte lo) + 256 * Z.of_N (N_of_byte hi))%Z in
  if (u <? 32768)%Z then u else (u - 65536)%Z.

Fixpoint int16_samples (buffer : list byte) : list Z :=
  match buffer with
  | lo :: hi :: rest => int16_of_bytes lo hi :: int16_samples rest
  | _ => []
  end.

(** [np.frombuffer(buffer, dtype=np.int16)] on a little-endian host:
    [ValueError] unless the size is a multiple of the element size. *)
Definition frombuffer_int16 (buffer : list byte) : exception + list Z :=
  if Nat.even (List.length buffer) then inr (int16_samples buffer)
  else inl ValueError.

End np.

(** ** The calls that the program makes on its collaborators *)

Inductive event : Type :=
  | OutputStream_new (samplerate channels : Z) (dtype : string)
  | OutputStream_start
  | OutputStream_write (audio_chunk : list Z)
  | OutputStream_stop
  | OutputStream_close
  | client_recv
  | st_error (body : string)
  | placeholder_markdown (body : string)
  | st_subheader (body : string)
  | st_audio (data : list byte) (format : string)
  | st_download_button (label : string) (data : list byte) (file_name mime : string)
  | print (text : string).

(** A message of the session: its [type] tag, and the attributes read by
    the loop ([delta] of the two delta messages, [error] of an error
    message, shown as text). *)
Record message : Type := Message {
  type : string;
  delta : string;
  error : string
}.

(** What one [await client.recv()] does: it delivers a message or raises. *)
Inductive recv_result : Type :=
  | Delivers (m : message)
  | Fails (info : string).

(** The local variables of the receive loop. *)
Record locals : Type := Locals {
  audio_buffer : list byte;
  transcript : string;
  done : bool
}.

Definition initial_locals : locals :=
  {| audio_buffer := []; transcript := ""; done := false |}.

(** What a run of a receive function leaves behind: the calls it made, the
    part of the session it did not read, and how it ended. *)
Record run (A : Type) : Type := Run {
  calls : list event;
  unread : list recv_result;
  result : outcome A
}.
Arguments Run {A} calls unread result.
Arguments calls {A} r.
Arguments unread {A} r.
Arguments result {A} r.

(** The loop of both programs,

      [while not done: message = await client.recv(); match message.type: ...]

    with the [match] statement as [on_message].  One message is received
    and handled before the next is asked for; an exception leaves the loop
    at once; when the session has nothing more to deliver, [recv] never
    returns. *)
Fixpoint while_not_done (on_message : message -> locals -> list event * (exception + locals))
    (inbox : list recv_result) (s : locals) : run locals :=
  if done s then Run [] inbox (Returns s)
  else
    match inbox with
    | [] => Run [client_recv] [] Blocks
    | Fails info :: rest => Run [client_recv] rest (Raises (RecvError info))
    | Delivers message :: rest =>
        match on_message message s with
        | (evs, inl e) => Run (client_recv :: evs) rest (Raises e)
        | (evs, inr s') =>
            let r := while_not_done on_message rest s' in
            Run (client_recv :: evs ++ calls r) (unread r) (result r)
        end
    end.

(** ** [struct], [wave] and the file system *)

Module struct.

Definition byte_of_Z (v : Z) : byte := byte_of_N (Z.to_N (v mod 256)).
Definition Z_of_byte (b : byte) : Z := Z.of_N (N_of_byte b).

(** The four, resp. two, bytes of an unsigned integer, least significant
    first. *)
Definition le32 (v : Z) : list byte :=
  [byte_of_Z v; byte_of_Z (v / 256); byte_of_Z (v / 65536); byte_of_Z (v / 16777216)].
Definition le16 (v : Z) : list byte := [byte_of_Z v; byte_of_Z (v / 256)].

(** [struct.pack('<L', v)]. *)
Definition pack_L (v : Z) : exception + list byte :=
  if ((0 <=? v) && (v <=? 4294967295))%Z then inr (le32 v) else inl StructError.

(** [struct.pack('<H', v)]. *)
Definition pack_H (v : Z) : exception + list byte :=
  if ((0 <=? v) && (v <=? 65535))%Z then inr (le16 v) else inl StructError.

(** [struct.unpack('<L', bs)] and [struct.unpack('<H', bs)]. *)
Definition unpack_L (bs : list byte) : option Z :=
  match bs with
  | [b0; b1; b2; b3] =>
      Some (Z_of_byte b0 + 256 * Z_of_byte b1 + 65536 * Z_of_byte b2
            + 16777216 * Z_of_byte b3)%Z
  | _ => None
  end.

Definition unpack_H (bs : list byte) : option Z :=
  match bs with
  | [b0; b1] => Some (Z_of_byte b0 + 256 * Z_of_byte b1)%Z
  | _ => None
  end.

End struct.

Module wave.

Definition WAVE_FORMAT_PCM : Z := 1.

(** The fields of a [wave.Wave_write] object, with the bytes written to
    its file so far. *)
Record Wave_write : Type := {
  file : list byte;
  nchannels : Z;
  sampwidth : Z;
  framerate : Z;
  nframes : Z;
  datawritten : Z;
  datalength : Z;
  headerwritten : bool;
  form_length_pos : nat;
  data_length_pos : nat
}.

(** [wave.open(filename, 'wb')]: a fresh writer on an empty file. *)
Definition open_wb : Wave_write :=
  {| file := []; nchannels := 0; sampwidth := 0; framerate := 0; nframes := 0;
     datawritten := 0; datalength := 0; headerwritten := false;
     form_length_pos := 0; data_length_pos := 0 |}.

Definition setnchannels (n : Z) (w : Wave_write) : exception + Wave_write :=
  if negb (datawritten w =? 0)%Z then inl WaveError
  else if (n <? 1)%Z then inl WaveError
  else inr {| file := file w; nchannels := n; sampwidth := sampwidth w;
              framerate := framerate w; nframes := nframes w;
              datawritten := datawritten w; datalength := datalength w;
              headerwritten := headerwritten w;
              form_length_pos := form_length_pos w;
              data_length_pos := data_length_pos w |}.

Definition setsampwidth (n : Z) (w : Wave_write) : exception + Wave_write :=
  if negb (datawritten w =? 0)%Z then inl WaveError
  else if ((n <? 1) || (4 <? n))%Z then inl WaveError
  else inr {| file := file w; nchannels := nchannels w; sampwidth := n;
              framerate := framerate w; nframes := nframes w;
              datawritten := datawritten w; datalength := datalength w;
              headerwritten := headerwritten w;
              form_length_pos := form_length_pos w;
              data_length_pos := data_length_pos w |}.

Definition setframerate (n : Z) (w : Wave_write) : exception + Wave_write :=
  if negb (datawritten w =? 0)%Z then inl WaveError
  else if (n <=? 0)%Z then inl WaveError
  else inr {| file := file w; nchannels := nchannels w; sampwidth := sampwidth w;
              framerate := n; nframes := nframes w;
              datawritten := datawritten w; datalength := datalength w;
              headerwritten := headerwritten w;
              form_length_pos := form_length_pos w;
              data_length_pos := data_length_pos w |}.

(** [struct.pack('<L4s4sLHHLLHH4sL', ...)] of [_write_header]. *)
Definition pack_header (form_length nch rate width data_length : Z)
    : exception + list byte :=
  let* f_form := struct.pack_L form_length in
  let* f_fmtlen := struct.pack_L 16 in
  let* f_tag := struct.pack_H WAVE_FORMAT_PCM in
  let* f_nch := struct.pack_H nch in
  let* f_rate := struct.pack_L rate in
  let* f_bytes := struct.pack_L (nch * rate * width) in
  let* f_align := struct.pack_H (nch * width) in
  let* f_bits := struct.pack_H (width * 8) in
  let* f_data := struct.pack_L data_length in
  inr (f_form ++ bytes_of_string "WAVE" ++ bytes_of_string "fmt " ++ f_fmtlen
       ++ f_tag ++ f_nch ++ f_rate ++ f_bytes ++ f_align ++ f_bits
       ++ bytes_of_string "data" ++ f_data)%list.

(** [_write_header(initlength)]. *)
Definition write_header (initlength : Z) (w : Wave_write) : exception + Wave_write :=
  let file1 := (file w ++ bytes_of_string "RIFF")%list in
  let nframes' :=
    if (nframes w =? 0)%Z then (initlength / (nchannels w * sampwidth w))%Z
    else nframes w in
  let datalength' := (nframes' * nchannels w * sampwidth w)%Z in
  let pos := List.length file1 in
  let* header :=
    pack_header (36 + datalength') (nchannels w) (framerate w) (sampwidth w) datalength' in
  let file2 := (file1 ++ header)%list in
  inr {| file := file2; nchannels := nchannels w; sampwidth := sampwidth w;
         framerate := framerate w; nframes := nframes';
         datawritten := datawritten w; datalength := datalength';
         headerwritten := true;
         form_length_pos := pos;
         data_length_pos := List.length file2 - 4 |}.

(** [_ensure_header_written(datasize)]. *)
Definition ensure_header_written (datasize : Z) (w : Wave_write)
    : exception + Wave_write :=
  if headerwritten w then inr w
  else if (nchannels w =? 0)%Z then inl WaveError
  else if (sampwidth w =? 0)%Z then inl WaveError
  else if (framerate w =? 0)%Z then inl WaveError
  else write_header datasize w.

(** [file.seek(pos); file.write(bs)] inside the part already written. *)
Definition write_at (pos : nat) (bs : list byte) (f : list byte) : list byte :=
  (firstn pos f ++ bs ++ skipn (pos + List.length bs) f)%list.

(** [_patchheader()]. *)
Definition patchheader (w : Wave_write) : exception + Wave_write :=
  if (datawritten w =? datalength w)%Z then inr w
  else
    let* f_form := struct.pack_L (36 + datawritten w) in
    let file1 := write_at (form_length_pos w) f_form (file w) in
    let* f_data := struct.pack_L (datawritten w) in
    let file2 := write_at (data_length_pos w) f_data file1 in
    inr {| file := file2; nchannels := nchannels w; sampwidth := sampwidth w;
           framerate := framerate w; nframes := nframes w;
           datawritten := datawritten w; datalength := datawritten w;
           headerwritten := headerwritten w;
           form_length_pos := form_length_pos w;
           data_length_pos := data_length_pos w |}.

(** [writeframesraw(data)] on a little-endian host. *)
Definition writeframesraw (data : list byte) (w : Wave_write) : exception + Wave_write :=
  let* w1 := ensure_header_written (Z.of_nat (List.length data)) w in
  inr {| file := (file w1 ++ data)%list; nchannels := nchannels w1;
         sampwidth := sampwidth w1; framerate := framerate w1; nframes := nframes w1;
         datawritten := (datawritten w1 + Z.of_nat (List.length data))%Z;
         datalength := datalength w1; headerwritten := headerwritten w1;
         form_length_pos := form_length_pos w1;
         data_length_pos := data_length_pos w1 |}.

(** [writeframes(data)]. *)
Definition writeframes (data : list byte) (w : Wave_write) : exception + Wave_write :=
  let* w1 := writeframesraw data w in
  if negb (datalength w1 =? datawritten w1)%Z then patchheader w1 else inr w1.

(** [close()], at the end of the [with] block: the bytes of the file. *)
Definition close (w : Wave_write) : exception + list byte :=
  let* w1 := ensure_header_written 0 w in
  let* w2 := if negb (datalength w1 =? datawritten w1)%Z then patchheader w1 else inr w1 in
  inr (file w2).

(** *** Reading

    What [wave.open(path, 'rb')] gets from a file, following
    [wave.Wave_read]: the RIFF chunk must hold the form type WAVE, its
    sub-chunks are visited in order, [fmt ] must describe PCM and come
    before [data], other chunks are skipped (with their pad byte when their
    size is odd).  The sample width is [(wBitsPerSample + 7) // 8] bytes, a
    frame is [nchannels * sampwidth] bytes, the [data] chunk holds
    [chunksize // framesize] frames, and [readframes] returns whole frames:
    the bytes of the chunk after its last whole frame are not returned. *)
Record wav : Type := {
  channels : Z;           (* getnchannels() *)
  sample_rate : Z;        (* getframerate() *)
  sample_width : Z;       (* getsampwidth(), in bytes *)
  frame_count : Z;        (* getnframes() *)
  data : list byte        (* readframes(getnframes()) *)
}.

Definition bits_per_sample (r : wav) : Z := 8 * sample_width r.

Record fmt : Type := { fmt_channels : Z; fmt_rate : Z; fmt_sampwidth : Z }.

Fixpoint bytes_eqb (a b : list byte) : bool :=
  match a, b with
  | [], [] => true
  | x :: a', y :: b' => Byte.eqb x y && bytes_eqb a' b'
  | _, _ => false
  end.

(** [_read_fmt_chunk]. *)
Definition read_fmt_chunk (body : list byte) : option fmt :=
  match struct.unpack_H (firstn 2 body),
        struct.unpack_H (firstn 2 (skipn 2 body)),
        struct.unpack_L (firstn 4 (skipn 4 body)),
        struct.unpack_H (firstn 2 (skipn 14 body)) with
  | Some tag, Some nch, Some rate, Some bits =>
      if (tag =? WAVE_FORMAT_PCM)%Z then
        let sampwidth := ((bits + 7) / 8)%Z in
        if (sampwidth =? 0)%Z then None          (* Error('bad sample width') *)
        else if (nch =? 0)%Z then None           (* Error('bad # of channels') *)
        else Some {| fmt_channels := nch; fmt_rate := rate; fmt_sampwidth := sampwidth |}
      else None
  | _, _, _, _ => None
  end.

Fixpoint read_chunks (fuel : nat) (bs : list byte) (f : option fmt) : option wav :=
  match fuel with
  | O => None
  | S fuel' =>
      match struct.unpack_L (firstn 4 (skipn 4 bs)) with
      | None => None
      | Some size =>
          let name := firstn 4 bs in
          let body := firstn (Z.to_nat size) (skipn 8 bs) in
          let next := skipn (8 + Z.to_nat size + Z.to_nat (size mod 2)) bs in
          if bytes_eqb name (bytes_of_string "fmt ") then
            match read_fmt_chunk body with
            | None => None
            | Some f' => read_chunks fuel' next (Some f')
            end
          else if bytes_eqb name (bytes_of_string "data") then
            match f with
            | None => None
            | Some f' =>
                let framesize := (fmt_channels f' * fmt_sampwidth f')%Z in
                let nframes := (size / framesize)%Z in
                Some {| channels := fmt_channels f'; sample_rate := fmt_rate f';
                        sample_width := fmt_sampwidth f'; frame_count := nframes;
                        data := firstn (Z.to_nat (nframes * framesize)) body |}
            end
          else read_chunks fuel' next f
      end
  end.

Definition read (bs : list byte) : option wav :=
  if bytes_eqb (firstn 4 bs) (bytes_of_string "RIFF") then
    match struct.unpack_L (firstn 4 (skipn 4 bs)) with
    | None => None
    | Some size =>
        let form := firstn (Z.to_nat size) (skipn 8 bs) in
        if bytes_eqb (firstn 4 form) (bytes_of_string "WAVE")
        then read_chunks (List.length form) (skipn 4 form) None
        else None
    end
  else None.

End wave.

(** The part of the operating system that the program touches: the files,
    the reading of the clock formatted by [strftime("%Y%m%d_%H%M%S")], and
    the name that [tempfile.NamedTemporaryFile] hands out next. *)
Record world : Type := World {
  files : gmap string (list byte);
  now : string;
  next_temp_name : string
}.

Definition write_file (path : string) (content : list byte) (w : world) : world :=
  {| files := <[path := content]> (files w); now := now w;
     next_temp_name := next_temp_name w |}.

Definition unlink (path : string) (w : world) : world :=
  {| files := delete path (files w); now := now w;
     next_temp_name := next_temp_name w |}.

(** The calls of the callers of the receive functions: the calls of these
    functions, and the calls on the session and on Streamlit that the
    callers add.  The constant arguments of the page set-up calls are left
    out. *)
Inductive call : Type :=
  | inner (e : event)
  | st_empty
  | RTLowLevelClient_enter (url azure_deployment key : string)
  | client_send (instructions : string)
  | RTLowLevelClient_exit
  | st_set_page_config
  | st_title
  | st_markdown (body : string)
  | st_text_area (label : string)
  | st_button (label : string)
  | st_warning (body : string)
  | st_spinner (text : string)
  | st_success (body : string).

(** How a caller ends. *)
Inductive ending (A : Type) : Type :=
  | Finished (a : A)
  | Raised (e : exception)
  | Blocked.
Arguments Finished {A} a.
Arguments Raised {A} e.
Arguments Blocked {A}.

(** What [generate_response] leaves behind: the calls made, the part of the
    session not read and, when it returns, the transcript, the path of the
    audio file and the files.  What the files hold after an exception is
    not modelled. *)
Record generation : Type := Generation {
  gen_calls : list call;
  gen_unread : list recv_result;
  gen_result : ending (string * option string * world)
}.

(** ** [app.py]

    [st] is the module [app] itself ([import app as st]): the look-up of
    [st.error] and of [st.subheader] raises [AttributeError].  The calls on
    the playback stream, on the session and on the [text_placeholder]
    argument do not go through [st].  The other functions of the file,
    [generate_response], [create_sidebar], [create_ui] and [app], begin with
    a call through [st] ([st.empty], [st.sidebar], [st.title],
    [st.set_page_config]) and are left at that. *)
Module app.

Definition SAMPLE_RATE : Z := 24000.
Definition CHANNELS : Z := 1.

(** [setup_audio_stream()]. *)
Definition setup_audio_stream : list event :=
  [OutputStream_new SAMPLE_RATE CHANNELS "int16"; OutputStream_start].

(** [play_audio_chunk(audio_stream, buffer)]. *)
Definition play_audio_chunk (buffer : list byte) : list event * (exception + unit) :=
  match np.frombuffer_int16 buffer with
  | inl e => ([], inl e)
  | inr audio_chunk => ([OutputStream_write audio_chunk], inr tt)
  end.

(** The [match message.type] statement of [process_llm_response]. *)
Definition on_message (message : message) (s : locals)
    : list event * (exception + locals) :=
  if type message =? "response.done" then
    ([], inr {| audio_buffer := audio_buffer s; transcript := transcript s; done := true |})
  else if type message =? "error" then
    (* [done = True], then [st.error] is looked up *)
    ([], inl (AttributeError "error"))
  else if type message =? "response.audio_transcript.delta" then
    let transcript' := transcript s ++ delta message in
    ([placeholder_markdown transcript'],
     inr {| audio_buffer := audio_buffer s; transcript := transcript'; done := done s |})
  else if type message =? "response.audio.delta" then
    match base64.b64decode (delta message) with
    | inl e => ([], inl e)
    | inr buffer =>
        match play_audio_chunk buffer with
        | (played, inl e) => (played, inl e)
        | (played, inr _) =>
            (played,
             inr {| audio_buffer := (audio_buffer s ++ buffer)%list;
                    transcript := transcript s; done := done s |})
        end
    end
  else ([], inr s).

(** [while not done: message = await client.recv(); match ...]. *)
Definition receive_loop : list recv_result -> locals -> run locals :=
  while_not_done on_message.

(** [process_llm_response(client, text_placeholder)]: the sink is set up,
    the loop runs inside [try], the [finally] clause stops and closes the
    sink whenever control leaves the loop.  The methods of the stream and
    of [text_placeholder] are taken not to raise. *)
Definition process_llm_response (inbox : list recv_result)
    : run (string * list byte) :=
  let r := receive_loop inbox initial_locals in
  match result r with
  | Blocks => Run (setup_audio_stream ++ calls r) (unread r) Blocks
  | Raises e =>
      Run (setup_audio_stream ++ calls r ++ [OutputStream_stop; OutputStream_close])
          (unread r) (Raises e)
  | Returns s =>
      Run (setup_audio_stream ++ calls r ++ [OutputStream_stop; OutputStream_close])
          (unread r) (Returns (transcript s, audio_buffer s))
  end.

(** [save_to_wav_file(audio_data, filename=None)].  Every path is taken to
    be writable; what a write that raises leaves in the file is not
    modelled. *)
Definition save_to_wav_file (audio_data : list byte) (filename : option string)
    (w : world) : exception + (string * world) :=
  let filename :=
    match filename with
    | None => "audio_output_" ++ now w ++ ".wav"
    | Some f => f
    end in
  let wav_file := wave.open_wb in
  let* wav_file := wave.setnchannels CHANNELS wav_file in
  let* wav_file := wave.setsampwidth 2 wav_file in
  let* wav_file := wave.setframerate SAMPLE_RATE wav_file in
  let* wav_file := wave.writeframes audio_data wav_file in
  let* content := wave.close wav_file in
  inr (filename, write_file filename content w).

(** [create_audio_file(audio_buffer)]. *)
Definition create_audio_file (audio_buffer : list byte) (w : world)
    : exception + (option string * world) :=
  match audio_buffer with
  | [] => inr (None, w)
  | _ :: _ =>
      let temp_filename := next_temp_name w in
      let w1 := write_file temp_filename [] w in
      let* saved := save_to_wav_file audio_buffer (Some temp_filename) w1 in
      inr (Some (fst saved), snd saved)
  end.

(** [display_audio_response(audio_file)]: for a path, [st.subheader] is
    looked up before the file is opened. *)
Definition display_audio_response (audio_file : option string) (w : world)
    : list event * (exception + world) :=
  match audio_file with
  | None => ([], inr w)
  | Some "" => ([], inr w)
  | Some _ => ([], inl (AttributeError "subheader"))
  end.

End app.

(** ** [streamlit.py]

    [st] is the Streamlit library, whose calls are taken not to raise. *)
Module streamlit.

Definition SAMPLE_RATE : Z := 24000.
Definition CHANNELS : Z := 1.

(** [setup_audio_stream()]. *)
Definition setup_audio_stream : list event :=
  [OutputStream_new SAMPLE_RATE CHANNELS "int16"; OutputStream_start].

(** [play_audio_chunk(audio_stream, buffer)]. *)
Definition play_audio_chunk (buffer : list byte) : list event * (exception + unit) :=
  match np.frombuffer_int16 buffer with
  | inl e => ([], inl e)
  | inr audio_chunk => ([OutputStream_write audio_chunk], inr tt)
  end.

(** The [match message.type] statement of [process_llm_response]. *)
Definition on_message (message : message) (s : locals)
    : list event * (exception + locals) :=
  if type message =? "response.done" then
    ([], inr {| audio_buffer := audio_buffer s; transcript := transcript s; done := true |})
  else if type message =? "error" then
    ([st_error ("Error: " ++ error message)],
     inr {| audio_buffer := audio_buffer s; transcript := transcript s; done := true |})
  else if type message =? "response.audio_transcript.delta" then
    let transcript' := transcript s ++ delta message in
    ([placeholder_markdown transcript'],
     inr {| audio_buffer := audio_buffer s; transcript := transcript'; done := done s |})
  else if type message =? "response.audio.delta" then
    match base64.b64decode (delta message) with
    | inl e => ([], inl e)
    | inr buffer =>
        match play_audio_chunk buffer with
        | (played, inl e) => (played, inl e)
        | (played, inr _) =>
            (played,
             inr {| audio_buffer := (audio_buffer s ++ buffer)%list;
                    transcript := transcript s; done := done s |})
        end
    end
  else ([], inr s).

(** [while not done: message = await client.recv(); match ...]. *)
Definition receive_loop : list recv_result -> locals -> run locals :=
  while_not_done on_message.

(** [process_llm_response(client, text_placeholder)]. *)
Definition process_llm_response (inbox : list recv_result)
    : run (string * list byte) :=
  let r := receive_loop inbox initial_locals in
  match result r with
  | Blocks => Run (setup_audio_stream ++ calls r) (unread r) Blocks
  | Raises e =>
      Run (setup_audio_stream ++ calls r ++ [OutputStream_stop; OutputStream_close])
          (unread r) (Raises e)
  | Returns s =>
      Run (setup_audio_stream ++ calls r ++ [OutputStream_stop; OutputStream_close])
          (unread r) (Returns (transcript s, audio_buffer s))
  end.

(** [save_to_wav_file(audio_data, filename=None)]. *)
Definition save_to_wav_file (audio_data : list byte) (filename : option string)
    (w : world) : exception + (string * world) :=
  let filename :=
    match filename with
    | None => "audio_output_" ++ now w ++ ".wav"
    | Some f => f
    end in
  let wav_file := wave.open_wb in
  let* wav_file := wave.setnchannels CHANNELS wav_file in
  let* wav_file := wave.setsampwidth 2 wav_file in
  let* wav_file := wave.setframerate SAMPLE_RATE wav_file in
  let* wav_file := wave.writeframes audio_data wav_file in
  let* content := wave.close wav_file in
  inr (filename, write_file filename content w).

(** [create_audio_file(audio_buffer)]. *)
Definition create_audio_file (audio_buffer : list byte) (w : world)
    : exception + (option string * world) :=
  match audio_buffer with
  | [] => inr (None, w)
  | _ :: _ =>
      let temp_filename := next_temp_name w in
      let w1 := write_file temp_filename [] w in
      let* saved := save_to_wav_file audio_buffer (Some temp_filename) w1 in
      inr (Some (fst saved), snd saved)
  end.

(** [generate_response(prompt)]; [endpoint], [deployment] and [api_key] are
    the module variables read from the environment at import.  Entering
    the session and sending the request are taken not to raise; leaving the
    [async with] block closes the session, also when an exception goes
    through it. *)
Definition generate_response (endpoint deployment api_key prompt : string)
    (inbox : list recv_result) (w : world) : generation :=
  let r := process_llm_response inbox in
  let opened :=
    ([st_empty; RTLowLevelClient_enter endpoint deployment api_key; client_send prompt]
     ++ List.map inner (calls r))%list in
  match result r with
  | Blocks => Generation opened (unread r) Blocked
  | Raises e => Generation (opened ++ [RTLowLevelClient_exit]) (unread r) (Raised e)
  | Returns (transcript, audio_buffer) =>
      match create_audio_file audio_buffer w with
      | inl e => Generation (opened ++ [RTLowLevelClient_exit]) (unread r) (Raised e)
      | inr (audio_file, w') =>
          Generation (opened ++ [RTLowLevelClient_exit]) (unread r)
            (Finished (transcript, audio_file, w'))
      end
  end.

(** [display_audio_response(audio_file)]; [os.unlink] of the file just read
    is taken to succeed. *)
Definition display_audio_response (audio_file : option string) (w : world)
    : list event * (exception + world) :=
  match audio_file with
  | None => ([], inr w)
  | Some "" => ([], inr w)
  | Some path =>
      match files w !! path with
      | None => ([st_subheader "Audio Response"], inl FileNotFoundError)
      | Some audio_bytes =>
          ([st_subheader "Audio Response";
            st_audio audio_bytes "audio/wav";
            st_download_button "Download Audio" audio_bytes "ai_response.wav" "audio/wav"],
           inr (unlink path w))
      end
  end.

(** [create_ui()]. *)
Definition create_ui : list call :=
  [st_set_page_config;
   st_title;
   st_markdown (String "010" "    Enter your prompt below and the AI will generate a spoken response."
                ++ String "010" "    ");
   st_text_area "Enter your prompt:"].

(** [app()]: [user_input] and [clicked] are what the text area and the
    button return in this run of the script. *)
Definition app (endpoint deployment api_key user_input : string) (clicked : bool)
    (inbox : list recv_result) (w : world) : list call * ending world :=
  let page := (create_ui ++ [st_button "Generate Response"])%list in
  if clicked then
    match user_input with
    | "" => ((page ++ [st_warning "Please enter a prompt."])%list, Finished w)
    | _ =>
        let g := generate_response endpoint deployment api_key user_input inbox w in
        let generated := (page ++ [st_spinner "Generating response..."] ++ gen_calls g)%list in
        match gen_result g with
        | Finished (transcript, audio_file, w1) =>
            let shown := display_audio_response audio_file w1 in
            let drawn :=
              (generated
               ++ [st_success "Response generated!"; inner (st_subheader "Text Response");
                   st_markdown transcript]
               ++ List.map inner (fst shown))%list in
            match snd shown with
            | inl e => (drawn, Raised e)
            | inr w2 => (drawn, Finished w2)
            end
        | Raised e => (generated, Raised e)
        | Blocked => (generated, Blocked)
        end
    end
  else (page, Finished w).

End streamlit.

Module script.

(** The [match message.type] statement of [text_in_audio_out]. *)
Definition on_message (message : message) (s : locals)
    : list event * (exception + locals) :=
  if type message =? "response.done" then
    ([], inr {| audio_buffer := audio_buffer s; transcript := transcript s; done := true |})
  else if type message =? "error" then
    ([print (error message)],
     inr {| audio_buffer := audio_buffer s; transcript := transcript s; done := true |})
  else if type message =? "response.audio_transcript.delta" then
    ([print ("Transcript: " ++ delta message ++ String "010" "")],
     inr {| audio_buffer := audio_buffer s; transcript := transcript s ++ delta message;
            done := done s |})
  else if type message =? "response.audio.delta" then
    match base64.b64decode (delta message) with
    | inl e => ([], inl e)
    | inr buffer =>
        ([print ("Received " ++ str_of_nat (List.length buffer) ++ " bytes of audio data.")],
         inr {| audio_buffer := (audio_buffer s ++ buffer)%list;
                transcript := transcript s; done := done s |})
    end
  else ([print ("Received message of type: " ++ type message)], inr s).

(** Lines 60 to 79 of [text_in_audio_out]: the receive loop. *)
Definition receive_loop : list recv_result -> locals -> run locals :=
  while_not_done on_message.

(** [save_to_wav_file(audio_data, filename=None)] of [script.py]. *)
Definition save_to_wav_file (audio_data : list byte) (filename : option string)
    (w : world) : exception + (string * world) :=
  let filename :=
    match filename with
    | None => "audio_output_" ++ now w ++ ".wav"
    | Some f => f
    end in
  let sample_rate := 24000%Z in
  let channels := 1%Z in
  let bits_per_sample := 16%Z in
  let wav_file := wave.open_wb in
  let* wav_file := wave.setnchannels channels wav_file in
  let* wav_file := wave.setsampwidth (bits_per_sample / 8) wav_file in
  let* wav_file := wave.setframerate sample_rate wav_file in
  let* wav_file := wave.writeframes audio_data wav_file in
  let* content := wave.close wav_file in
  inr (filename, write_file filename content w).

End script.

Definition audio_delta (payload : string) : message :=
  {| type := "response.audio.delta"; delta := payload; error := "" |}.
Definition transcript_delta (text : string) : message :=
  {| type := "response.audio_transcript.delta"; delta := text; error := "" |}.
Definition response_done : message :=
  {| type := "response.done"; delta := ""; error := "" |}.
Definition error_message (payload : string) : message :=
  {| type := "error"; delta := ""; error := payload |}.

(** ** [models_config.py] *)

(** [os.environ] as the program scans it: the variables in iteration
    order, each with its value. *)
Module os.

Definition environ : Type := list (string * string).

(** [key in os.environ]. *)
Definition mem (key : string) (env : environ) : bool :=
  List.existsb (fun kv => fst kv =? key) env.

(** [os.environ.get(key)]. *)
Fixpoint get (key : string) (env : environ) : option string :=
  match env with
  | [] => None
  | (k, v) :: env' => if k =? key then Some v else get key env'
  end.

(** [os.environ.get(key, default)]. *)
Definition get_default (key default : string) (env : environ) : string :=
  match get key env with
  | Some v => v
  | None => default
  end.

End os.

(** A Python [dict] with string keys: the items in insertion order; an
    assignment to a key already there replaces the value in place. *)
Module dict.

Fixpoint get {V : Type} (key : string) (d : list (string * V)) : option V :=
  match d with
  | [] => None
  | (k, v) :: d' => if k =? key then Some v else get key d'
  end.

Fixpoint set {V : Type} (key : string) (value : V) (d : list (string * V))
    : list (string * V) :=
  match d with
  | [] => [(key, value)]
  | (k, v) :: d' =>
      if k =? key then (key, value) :: d' else (k, v) :: set key value d'
  end.

End dict.

Module models_config.

(** A value of the [models] dictionary: [{"name": ..., "suffix": ...}]. *)
Record model : Type := Model {
  name : string;
  suffix : string
}.

Definition required_keys : list string :=
  ["ENDPOINT"; "API_KEY"; "API_VERSION"; "DEPLOYMENT_NAME"; "API_TYPE"].

(** [[v for v in os.environ if v.startswith('DEPLOYMENT_NAME_')]]. *)
Definition deployment_vars (env : os.environ) : list string :=
  List.filter (fun v => str.startswith v "DEPLOYMENT_NAME_") (List.map fst env).

(** [all(f"{key}_{suffix}" in os.environ for key in [...])]. *)
Definition required_vars_exist (env : os.environ) (suffix : string) : bool :=
  List.forallb (fun key => os.mem (key ++ "_" ++ suffix) env) required_keys.

(** The body of the [for var in deployment_vars] loop; [lower] is
    [str.lower].  [os.environ[var]] is the value of a variable met in the
    scan, so it is always there. *)
Definition scan_var (lower : string -> string) (env : os.environ)
    (models : list (string * model)) (var : string) : list (string * model) :=
  let suffix := str.replace var "DEPLOYMENT_NAME_" "" in
  let model_id := lower suffix in
  if required_vars_exist env suffix then
    let display_name :=
      os.get_default ("MODEL_" ++ suffix) (os.get_default var "" env) env in
    dict.set model_id {| name := display_name; suffix := suffix |} models
  else models.

(** [_discover_models()], on the environment it reads. *)
Definition _discover_models (lower : string -> string) (env : os.environ)
    : list (string * model) :=
  List.fold_left (scan_var lower env) (deployment_vars env) [].

(** [get_model_names()], [MODELS] being the dictionary built at import. *)
Definition get_model_names (MODELS : list (string * model)) : list (string * string) :=
  List.map (fun item => (fst item, name (snd item))) MODELS.

(** [get_model_info(model_id)]. *)
Definition get_model_info (MODELS : list (string * model)) (model_id : string)
    : exception + model :=
  match dict.get model_id MODELS with
  | Some m => inr m
  | None => inl ValueError
  end.

(** [get_env_variable_keys(model_id)]. *)
Definition get_env_variable_keys (MODELS : list (string * model)) (model_id : string)
    : exception + list (string * string) :=
  let* model := get_model_info MODELS model_id in
  let suffix := suffix model in
  inr [("endpoint", "ENDPOINT_" ++ suffix);
       ("api_key", "API_KEY_" ++ suffix);
       ("api_version", "API_VERSION_" ++ suffix);
       ("deployment_name", "DEPLOYMENT_NAME_" ++ suffix);
       ("api_type", "API_TYPE_" ++ suffix)].

End models_config.


(** ** The whole of [text_in_audio_out] *)

Module script_main.

(** Lines 81 to 90 of [text_in_audio_out]: the audio is saved when there is
    some, the transcript is printed. *)
Definition report (s : locals) (w : world) : list event * (exception + world) :=
  match audio_buffer s with
  | [] =>
      ([print "No audio data received."; print (String "010" "Full transcript:");
        print (transcript s)],
       inr w)
  | _ :: _ =>
      match script.save_to_wav_file (audio_buffer s) None w with
      | inl e => ([], inl e)
      | inr (filename, w') =>
          ([print (String "010" "Complete audio saved to: " ++ filename);
            print ("Total audio size: " ++ str_of_nat (List.length (audio_buffer s))
                   ++ " bytes");
            print (String "010" "Full transcript:");
            print (transcript s)],
           inr w')
      end
  end.

(** [text_in_audio_out()]; [endpoint], [deployment] and [api_key] are the
    module variables read from the environment at import. *)
Definition text_in_audio_out (endpoint deployment api_key : string)
    (inbox : list recv_result) (w : world) : list call * world * ending unit :=
  let r := script.receive_loop inbox initial_locals in
  let opened :=
    ([RTLowLevelClient_enter endpoint deployment api_key; client_send "Hello."]
     ++ List.map inner (calls r))%list in
  match result r with
  | Blocks => (opened, w, Blocked)
  | Raises e => ((opened ++ [RTLowLevelClient_exit])%list, w, Raised e)
  | Returns s =>
      match report s w with
      | (evs, inl e) =>
          ((opened ++ [RTLowLevelClient_exit] ++ List.map inner evs)%list, w, Raised e)
      | (evs, inr w') =>
          ((opened ++ [RTLowLevelClient_exit] ++ List.map inner evs)%list, w', Finished tt)
      end
  end.

End script_main.

(** ** Notions used in the statements *)

Definition is_transcript_delta (m : message) : bool :=
  type m =? "response.audio_transcript.delta".
Definition is_audio_delta (m : message) : bool :=
  type m =? "response.audio.delta".
Definition is_terminal (m : message) : bool :=
  (type m =? "response.done") || (type m =? "error").

(** The text and the audio bytes that one message contributes. *)
Definition delta_text (m : message) : string :=
  if is_transcript_delta m then delta m else "".
Definition delta_audio (m : message) : list byte :=
  if is_audio_delta m then
    match base64.b64decode (delta m) with
    | inr buffer => buffer
    | inl _ => []
    end
  else [].

(** The transcript delta texts, resp. the decoded audio delta payloads, of
    a sequence of messages, concatenated in arrival order. *)
Definition transcript_text (msgs : list message) : string :=
  List.fold_right String.append "" (List.map delta_text msgs).
Definition audio_bytes (msgs : list message) : list byte :=
  List.concat (List.map delta_audio msgs).

(** An audio delta whose payload is base64 text ... *)
Definition decodable (m : message) : bool :=
  negb (is_audio_delta m) ||
  match base64.b64decode (delta m) with
  | inr _ => true
  | inl _ => false
  end.

(** ... and decodes to whole 16-bit samples. *)
Definition whole_samples (m : message) : bool :=
  negb (is_audio_delta m) ||
  match base64.b64decode (delta m) with
  | inr buffer => Nat.even (List.length buffer)
  | inl _ => false
  end.

Definition is_delta (m : message) : bool := is_transcript_delta m || is_audio_delta m.

(** A message that keeps [process_llm_response] in its loop. *)
Definition passes (m : message) : bool := negb (is_terminal m) && whole_samples m.

(** The suffix that the scan computes for a variable, and the dictionary
    value that it stores for it. *)
Definition suffix_of (var : string) : string := str.replace var "DEPLOYMENT_NAME_" "".
Definition descriptor (env : os.environ) (var : string) : models_config.model :=
  {| models_config.name :=
       os.get_default ("MODEL_" ++ suffix_of var) (os.get_default var "" env) env;
     models_config.suffix := suffix_of var |}.

(** An item of the dictionary comes from a complete variable of the scan. *)
Definition registered (lower : string -> string) (env : os.environ)
    (model_id : string) (m : models_config.model) : Prop :=
  exists var,
    In var (models_config.deployment_vars env)
    /\ models_config.required_vars_exist env (suffix_of var) = true
    /\ model_id = lower (suffix_of var)
    /\ m = descriptor env var.

(** The five variable names derived from a suffix. *)
Definition credential_keys (suffix : string) : list (string * string) :=
  [("endpoint", "ENDPOINT_" ++ suffix);
   ("api_key", "API_KEY_" ++ suffix);
   ("api_version", "API_VERSION_" ++ suffix);
   ("deployment_name", "DEPLOYMENT_NAME_" ++ suffix);
   ("api_type", "API_TYPE_" ++ suffix)].

(** The canonical 44-byte header of a mono, 16-bit, 24000 Hz PCM file
    holding [n] bytes of samples, and the file made of it and the samples. *)
Definition riff_tag : list byte := bytes_of_string "RIFF".
Definition fmt_part : list byte :=
  (bytes_of_string "WAVE" ++ bytes_of_string "fmt " ++ struct.le32 16
   ++ struct.le16 1 ++ struct.le16 1 ++ struct.le32 24000 ++ struct.le32 48000
   ++ struct.le16 2 ++ struct.le16 16 ++ bytes_of_string "data")%list.
Definition canonical_header (n : Z) : list byte :=
  (riff_tag ++ struct.le32 (36 + n) ++ fmt_part ++ struct.le32 n)%list.
Definition wav_bytes (samples : list byte) : list byte :=
  (canonical_header (Z.of_nat (List.length samples)) ++ samples)%list.

(** The writer once [setnchannels(1)], [setsampwidth(2)] and
    [setframerate(24000)] have been called on it. *)
Definition configured : wave.Wave_write :=
  {| wave.file := []; wave.nchannels := 1; wave.sampwidth := 2; wave.framerate := 24000;
     wave.nframes := 0; wave.datawritten := 0; wave.datalength := 0;
     wave.headerwritten := false; wave.form_length_pos := 0; wave.data_length_pos := 0 |}.

Definition is_recv (e : event) : bool :=
  match e with
  | client_recv => true
  | _ => false
  end.

(** The number of [client.recv()] calls among the calls made. *)
Definition recv_count (evs : list event) : nat := List.length (List.filter is_recv evs).

(** The calls of the life cycle of the playback stream. *)
Definition sink_lifecycle (e : event) : bool :=
  match e with
  | OutputStream_new _ _ _ | OutputStream_start | OutputStream_stop | OutputStream_close => true
  | _ => false
  end.

Definition is_st_error (e : event) : bool :=
  match e with
  | st_error _ => true
  | _ => false
  end.

Definition is_release (e : event) : bool :=
  match e with
  | OutputStream_stop | OutputStream_close => true
  | _ => false
  end.

Definition is_acquire (e : event) : bool :=
  match e with
  | OutputStream_new _ _ _ | OutputStream_start => true
  | _ => false
  end.

(** The playback stream is created (24000 Hz, mono, int16) and started,
    each once, and only then the first [recv] is issued. *)
Definition acquired_before_loop (evs : list event) : Prop :=
  exists later,
    evs = OutputStream_new 24000 1 "int16" :: OutputStream_start :: client_recv :: later
    /\ List.filter is_acquire later = [].

(** The stream is created and started first, stopped and closed last, and
    nothing in between touches its life cycle. *)
Definition released_once_at_exit (evs : list event) : Prop :=
  exists body,
    evs = ([OutputStream_new 24000 1 "int16"; OutputStream_start] ++ body
           ++ [OutputStream_stop; OutputStream_close])%list
    /\ List.forallb (fun e => negb (sink_lifecycle e)) body = true
    /\ List.filter is_release evs = [OutputStream_stop; OutputStream_close]
    /\ List.filter is_acquire evs = [OutputStream_new 24000 1 "int16"; OutputStream_start].

(** A session that delivers [msgs], then [e], then [rest]. *)
Definition session (msgs : list message) (e : message) (rest : list recv_result)
    : list recv_result :=
  (List.map Delivers msgs ++ Delivers e :: rest)%list.

(** Calls that are neither a [recv], nor part of the life cycle of the
    stream, nor an error display. *)
Definition quiet (evs : list event) : bool :=
  List.forallb (fun e => negb (is_recv e || sink_lifecycle e || is_st_error e)) evs.

(** The local variables after a message that adds its deltas. *)
Definition extended (s : locals) (m : message) : locals :=
  {| audio_buffer := (audio_buffer s ++ delta_audio m)%list;
     transcript := transcript s ++ delta_text m;
     done := done s |}.

(** The texts shown in the transcript placeholder, the samples written to
    the playback stream, the released-or-not state of the stream. *)
Fixpoint markdown_bodies (evs : list event) : list string :=
  match evs with
  | [] => []
  | placeholder_markdown body :: evs' => body :: markdown_bodies evs'
  | _ :: evs' => markdown_bodies evs'
  end.

Fixpoint written_samples (evs : list event) : list Z :=
  match evs with
  | [] => []
  | OutputStream_write audio_chunk :: evs' => (audio_chunk ++ written_samples evs')%list
  | _ :: evs' => written_samples evs'
  end.

(** The transcript after each transcript delta of a sequence of messages,
    starting from [so_far]. *)
Fixpoint running_transcripts (so_far : string) (msgs : list message) : list string :=
  match msgs with
  | [] => []
  | m :: msgs' =>
      if is_transcript_delta m
      then (so_far ++ delta m) :: running_transcripts (so_far ++ delta m) msgs'
      else running_transcripts so_far msgs'
  end.

(** The calls on the session. *)
Definition is_session_call (c : call) : bool :=
  match c with
  | RTLowLevelClient_enter _ _ _ | client_send _ | RTLowLevelClient_exit
  | inner client_recv => true
  | _ => false
  end.

(** * Properties *)

(** ** The receive loop *)

Lemma append_cons (ch : ascii) (a b : string) : String ch a ++ b = String ch (a ++ b).
Proof. reflexivity. Qed.

Lemma append_empty_l (a : string) : "" ++ a = a.
Proof. reflexivity. Qed.

Lemma append_assoc (a b c : string) : (a ++ b) ++ c = a ++ (b ++ c).
Proof.
  induction a as [|ch a IH]; [reflexivity|].
  now rewrite !append_cons, IH.
Qed.

Lemma append_empty_r (a : string) : a ++ "" = a.
Proof.
  induction a as [|ch a IH]; [reflexivity|].
  now rewrite append_cons, IH.
Qed.

Lemma audio_is_not_transcript (m : message) :
  is_audio_delta m = true -> is_transcript_delta m = false.
Proof.
  unfold is_audio_delta, is_transcript_delta. intros H.
  apply String.eqb_eq in H. now rewrite H.
Qed.

Lemma passes_inv (m : message) :
  passes m = true ->
  (type m =? "response.done") = false /\ (type m =? "error") = false /\
  whole_samples m = true.
Proof.
  unfold passes, is_terminal. intros H.
  apply andb_true_iff in H as [H1 H2]. apply negb_true_iff, orb_false_iff in H1.
  tauto.
Qed.

Lemma recv_count_app (a b : list event) : recv_count (a ++ b) = recv_count a + recv_count b.
Proof. unfold recv_count. now rewrite List.filter_app, length_app. Qed.

Lemma quiet_calls (evs : list event) :
  quiet evs = true ->
  recv_count evs = 0 /\ List.forallb (fun e => negb (sink_lifecycle e)) evs = true
  /\ List.forallb (fun e => negb (is_st_error e)) evs = true.
Proof.
  unfold quiet. induction evs as [|e evs IH]; simpl; [auto|].
  intros H. apply andb_true_iff in H as [H1 H2].
  destruct (IH H2) as (IH1 & IH2 & IH3).
  apply negb_true_iff in H1. apply orb_false_iff in H1 as [H1 H1c].
  apply orb_false_iff in H1 as [H1a H1b].
  unfold recv_count in *. simpl. rewrite H1a, H1b, H1c. simpl. auto.
Qed.

Section Steady.

(** A handler, and a class [ok] of messages on which it only adds the
    deltas and makes quiet calls. *)
Variable on_message : message -> locals -> list event * (exception + locals).
Variable ok : message -> bool.
Hypothesis on_message_ok :
  forall m s, ok m = true ->
    exists evs, on_message m s = (evs, inr (extended s m)) /\ quiet evs = true.

(** A run of such messages is consumed in order; the loop goes on with
    what follows them, the accumulators extended by their deltas. *)
Lemma while_not_done_steady (msgs : list message) :
  forall (s : locals) (tail : list recv_result),
    done s = false ->
    List.forallb ok msgs = true ->
    let r := while_not_done on_message (List.map Delivers msgs ++ tail) s in
    let r' := while_not_done on_message tail
                {| audio_buffer := (audio_buffer s ++ audio_bytes msgs)%list;
                   transcript := transcript s ++ transcript_text msgs;
                   done := false |} in
    exists body,
      calls r = (body ++ calls r')%list /\ unread r = unread r' /\ result r = result r'
      /\ recv_count body = List.length msgs
      /\ List.forallb (fun e => negb (sink_lifecycle e)) body = true
      /\ List.forallb (fun e => negb (is_st_error e)) body = true.
Proof.
  induction msgs as [|m msgs IH]; intros s tail Hs Hall; simpl in *.
  - exists []. unfold audio_bytes, transcript_text; simpl.
    rewrite app_nil_r, append_empty_r. destruct s as [a t d]; simpl in *; subst d.
    repeat split; reflexivity.
  - apply andb_true_iff in Hall as [Hm Hall].
    rewrite Hs. destruct (on_message_ok m s Hm) as (evs & Hon & Hq).
    rewrite Hon. simpl.
    destruct (quiet_calls evs Hq) as (Hq1 & Hq2 & Hq3).
    specialize (IH (extended s m) tail Hs Hall).
    simpl in IH. destruct IH as (body & Hc & Hu & Hr & Hn & Hl & He).
    unfold audio_bytes, transcript_text in *. simpl.
    rewrite <- app_assoc, append_assoc in Hc, Hu, Hr.
    exists (client_recv :: evs ++ body)%list. simpl.
    rewrite Hc, Hu, Hr. rewrite <- app_assoc.
    repeat split; try reflexivity.
    + change (recv_count (client_recv :: evs ++ body) = S (List.length msgs)).
      change (client_recv :: evs ++ body)%list with ([client_recv] ++ evs ++ body)%list.
      rewrite !recv_count_app, Hq1, Hn. reflexivity.
    + rewrite forallb_app, Hq2, Hl. reflexivity.
    + rewrite forallb_app, Hq3, He. reflexivity.
Qed.

End Steady.

(** One message that passes in [process_llm_response]. *)
Lemma app_on_message_passes (m : message) (s : locals) :
  passes m = true ->
  exists evs, app.on_message m s = (evs, inr (extended s m)) /\ quiet evs = true.
Proof.
  intros Hp. destruct (passes_inv m Hp) as (Hd & He & Hw).
  unfold app.on_message, extended. rewrite Hd, He.
  unfold delta_text, delta_audio, whole_samples in *.
  destruct (is_transcript_delta m) eqn:Ht.
  - unfold is_transcript_delta in Ht. rewrite Ht.
    assert (Ha : is_audio_delta m = false).
    { unfold is_audio_delta. apply String.eqb_eq in Ht. now rewrite Ht. }
    rewrite Ha, app_nil_r. eexists. split; reflexivity.
  - unfold is_transcript_delta in Ht. rewrite Ht.
    destruct (is_audio_delta m) eqn:Ha; unfold is_audio_delta in Ha; rewrite Ha.
    + simpl in Hw. destruct (base64.b64decode (delta m)) as [e|buffer]; [discriminate|].
      unfold app.play_audio_chunk, np.frombuffer_int16. rewrite Hw.
      rewrite append_empty_r. eexists. split; reflexivity.
    + rewrite app_nil_r, append_empty_r. destruct s. eexists. split; reflexivity.
Qed.

(** One message that the loop of [script.py] passes: there is no playback,
    the payload of an audio delta only has to decode. *)
Lemma script_on_message_passes (m : message) (s : locals) :
  negb (is_terminal m) && decodable m = true ->
  exists evs, script.on_message m s = (evs, inr (extended s m)) /\ quiet evs = true.
Proof.
  intros Hp. apply andb_true_iff in Hp as [Hterm Hw].
  apply negb_true_iff, orb_false_iff in Hterm as [Hd He].
  unfold script.on_message, extended. rewrite Hd, He.
  unfold delta_text, delta_audio, decodable in *.
  destruct (is_transcript_delta m) eqn:Ht.
  - unfold is_transcript_delta in Ht. rewrite Ht.
    assert (Ha : is_audio_delta m = false).
    { unfold is_audio_delta. apply String.eqb_eq in Ht. now rewrite Ht. }
    rewrite Ha, app_nil_r. eexists. split; reflexivity.
  - unfold is_transcript_delta in Ht. rewrite Ht.
    destruct (is_audio_delta m) eqn:Ha; unfold is_audio_delta in Ha; rewrite Ha.
    + simpl in Hw. destruct (base64.b64decode (delta m)) as [e|buffer]; [discriminate|].
      rewrite append_empty_r. eexists. split; reflexivity.
    + rewrite app_nil_r, append_empty_r. destruct s. eexists. split; reflexivity.
Qed.

Lemma whole_samples_decodable (m : message) : whole_samples m = true -> decodable m = true.
Proof.
  unfold whole_samples, decodable. destruct (is_audio_delta m); simpl; [|auto].
  destruct (base64.b64decode (delta m)); auto.
Qed.

Lemma is_delta_not_terminal (m : message) : is_delta m = true -> is_terminal m = false.
Proof.
  unfold is_delta, is_terminal, is_transcript_delta, is_audio_delta.
  intros H. apply orb_true_iff in H as [H|H]; apply String.eqb_eq in H; now rewrite H.
Qed.

(** Once [done] is set the loop is left, whatever the session holds. *)
Lemma while_not_done_done on_message (inbox : list recv_result) (s : locals) :
  done s = true -> while_not_done on_message inbox s = Run [] inbox (Returns s).
Proof. intros H. destruct inbox; simpl; now rewrite H. Qed.

Lemma while_not_done_step on_message (m : message) (rest : list recv_result) (s : locals) :
  done s = false ->
  while_not_done on_message (Delivers m :: rest) s =
    match on_message m s with
    | (evs, inl e) => Run (client_recv :: evs) rest (Raises e)
    | (evs, inr s') =>
        let r := while_not_done on_message rest s' in
        Run (client_recv :: evs ++ calls r) (unread r) (result r)
    end.
Proof. intros H. simpl. now rewrite H. Qed.

(** The terminal messages end the loop at once: one [recv], no further one. *)
Lemma app_loop_response_done (fin : message) (s : locals) (rest : list recv_result) :
  done s = false -> type fin = "response.done" ->
  app.receive_loop (Delivers fin :: rest) s =
    Run [client_recv] rest
      (Returns {| audio_buffer := audio_buffer s; transcript := transcript s; done := true |}).
Proof.
  intros Hs Ht. unfold app.receive_loop.
  rewrite while_not_done_step by assumption.
  unfold app.on_message. rewrite Ht. simpl.
  rewrite while_not_done_done by reflexivity. reflexivity.
Qed.

(** In [app.py] the [error] message ends the loop by the [AttributeError]
    of [st.error]. *)
Lemma app_loop_error (e : message) (s : locals) (rest : list recv_result) :
  done s = false -> type e = "error" ->
  app.receive_loop (Delivers e :: rest) s =
    Run [client_recv] rest (Raises (AttributeError "error")).
Proof.
  intros Hs Ht. unfold app.receive_loop.
  rewrite while_not_done_step by assumption.
  unfold app.on_message. rewrite Ht. reflexivity.
Qed.

(** The two handlers differ on the [error] message only. *)
Lemma streamlit_on_message_app (m : message) (s : locals) :
  (type m =? "error") = false -> streamlit.on_message m s = app.on_message m s.
Proof.
  intros H. unfold streamlit.on_message, app.on_message. rewrite H. reflexivity.
Qed.

Lemma streamlit_on_message_passes (m : message) (s : locals) :
  passes m = true ->
  exists evs, streamlit.on_message m s = (evs, inr (extended s m)) /\ quiet evs = true.
Proof.
  intros Hp. destruct (passes_inv m Hp) as (_ & He & _).
  rewrite (streamlit_on_message_app m s He). now apply app_on_message_passes.
Qed.

Lemma streamlit_loop_response_done (fin : message) (s : locals) (rest : list recv_result) :
  done s = false -> type fin = "response.done" ->
  streamlit.receive_loop (Delivers fin :: rest) s =
    Run [client_recv] rest
      (Returns {| audio_buffer := audio_buffer s; transcript := transcript s; done := true |}).
Proof.
  intros Hs Ht. unfold streamlit.receive_loop.
  rewrite while_not_done_step by assumption.
  unfold streamlit.on_message. rewrite Ht. simpl.
  rewrite while_not_done_done by reflexivity. reflexivity.
Qed.

Lemma streamlit_loop_error (e : message) (s : locals) (rest : list recv_result) :
  done s = false -> type e = "error" ->
  streamlit.receive_loop (Delivers e :: rest) s =
    Run [client_recv; st_error ("Error: " ++ error e)] rest
      (Returns {| audio_buffer := audio_buffer s; transcript := transcript s; done := true |}).
Proof.
  intros Hs Ht. unfold streamlit.receive_loop.
  rewrite while_not_done_step by assumption.
  unfold streamlit.on_message. rewrite Ht. simpl.
  rewrite while_not_done_done by reflexivity. reflexivity.
Qed.

Lemma script_loop_response_done (fin : message) (s : locals) (rest : list recv_result) :
  done s = false -> type fin = "response.done" ->
  script.receive_loop (Delivers fin :: rest) s =
    Run [client_recv] rest
      (Returns {| audio_buffer := audio_buffer s; transcript := transcript s; done := true |}).
Proof.
  intros Hs Ht. unfold script.receive_loop.
  rewrite while_not_done_step by assumption.
  unfold script.on_message. rewrite Ht. simpl.
  rewrite while_not_done_done by reflexivity. reflexivity.
Qed.

(** The handler of [process_llm_response] never touches the life cycle of
    the stream. *)
Lemma app_on_message_no_lifecycle (m : message) (s : locals) :
  List.forallb (fun e => negb (sink_lifecycle e)) (fst (app.on_message m s)) = true.
Proof.
  unfold app.on_message.
  repeat match goal with
         | |- context [if ?b then _ else _] => destruct b
         end; try reflexivity.
  destruct (base64.b64decode (delta m)) as [e|buffer]; [reflexivity|].
  unfold app.play_audio_chunk. destruct (np.frombuffer_int16 buffer); reflexivity.
Qed.

Lemma app_loop_no_lifecycle (inbox : list recv_result) :
  forall s, List.forallb (fun e => negb (sink_lifecycle e)) (calls (app.receive_loop inbox s)) = true.
Proof.
  unfold app.receive_loop.
  induction inbox as [|r inbox IH]; intros s; simpl.
  - destruct (done s); reflexivity.
  - destruct (done s); [reflexivity|].
    destruct r as [m|info]; [|reflexivity].
    pose proof (app_on_message_no_lifecycle m s) as Hm.
    destruct (app.on_message m s) as [evs [e|s']]; simpl in *.
    + exact Hm.
    + rewrite forallb_app, Hm, IH. reflexivity.
Qed.

Lemma streamlit_on_message_no_lifecycle (m : message) (s : locals) :
  List.forallb (fun e => negb (sink_lifecycle e)) (fst (streamlit.on_message m s)) = true.
Proof.
  destruct (type m =? "error") eqn:He.
  - unfold streamlit.on_message. rewrite He.
    destruct (type m =? "response.done"); reflexivity.
  - rewrite (streamlit_on_message_app m s He). apply app_on_message_no_lifecycle.
Qed.

Lemma streamlit_loop_no_lifecycle (inbox : list recv_result) :
  forall s, List.forallb (fun e => negb (sink_lifecycle e))
              (calls (streamlit.receive_loop inbox s)) = true.
Proof.
  unfold streamlit.receive_loop.
  induction inbox as [|r inbox IH]; intros s; simpl.
  - destruct (done s); reflexivity.
  - destruct (done s); [reflexivity|].
    destruct r as [m|info]; [|reflexivity].
    pose proof (streamlit_on_message_no_lifecycle m s) as Hm.
    destruct (streamlit.on_message m s) as [evs [e|s']]; simpl in *.
    + exact Hm.
    + rewrite forallb_app, Hm, IH. reflexivity.
Qed.

(** While [done] is not set, the loop starts with a [recv]. *)
Lemma while_not_done_starts_with_recv on_message (inbox : list recv_result) (s : locals) :
  done s = false ->
  exists later, calls (while_not_done on_message inbox s) = client_recv :: later.
Proof.
  intros Hs. destruct inbox as [|[m|info] rest]; simpl; rewrite Hs.
  - now exists [].
  - destruct (on_message m s) as [evs [e|s']]; simpl; eauto.
  - now exists [].
Qed.

Lemma acquire_is_lifecycle (e : event) : is_acquire e = true -> sink_lifecycle e = true.
Proof. destruct e; simpl; auto. Qed.

Lemma filter_none {A : Type} (f g : A -> bool) (l : list A) :
  (forall x, f x = true -> g x = true) ->
  List.forallb (fun x => negb (g x)) l = true -> List.filter f l = [].
Proof.
  intros Hfg. induction l as [|x l IH]; simpl; [reflexivity|].
  intros H. apply andb_true_iff in H as [Hx Hl].
  destruct (f x) eqn:Hf; [|auto].
  apply Hfg in Hf. rewrite Hf in Hx. discriminate.
Qed.

Lemma release_is_lifecycle (e : event) : is_release e = true -> sink_lifecycle e = true.
Proof. destruct e; simpl; auto. Qed.

(** C7.  While the loop is receiving, a message whose tag is none of
    [response.done], [error], [response.audio_transcript.delta],
    [response.audio.delta] changes neither the transcript, nor the audio
    buffer, nor the [done] flag, raises nothing, and the loop goes on with
    the next [recv] in the same state; this holds in [app.py] and in
    [script.py] (which prints the tag). *)
Theorem unrecognised_tag_is_ignored (m : message) (s : locals) (rest : list recv_result) :
  type m <> "response.done" ->
  type m <> "error" ->
  type m <> "response.audio_transcript.delta" ->
  type m <> "response.audio.delta" ->
  done s = false ->
  app.on_message m s = ([], inr s)
  /\ script.on_message m s = ([print ("Received message of type: " ++ type m)], inr s)
  /\ (let r := app.receive_loop rest s in
      app.receive_loop (Delivers m :: rest) s
        = Run (client_recv :: calls r) (unread r) (result r))
  /\ (let r := script.receive_loop rest s in
      script.receive_loop (Delivers m :: rest) s
        = Run (client_recv :: print ("Received message of type: " ++ type m) :: calls r)
              (unread r) (result r)).
Proof.
  intros H1 H2 H3 H4 Hs.
  apply String.eqb_neq in H1, H2, H3, H4.
  assert (Ha : app.on_message m s = ([], inr s)).
  { unfold app.on_message. now rewrite H1, H2, H3, H4. }
  assert (Hb : script.on_message m s
               = ([print ("Received message of type: " ++ type m)], inr s)).
  { unfold script.on_message. now rewrite H1, H2, H3, H4. }
  repeat split; try assumption.
  - unfold app.receive_loop. rewrite while_not_done_step by assumption. now rewrite Ha.
  - unfold script.receive_loop. rewrite while_not_done_step by assumption. now rewrite Hb.
Qed.

Lemma unrecognised_tag_is_ignored_witness :
  app.on_message {| type := "session.created"; delta := ""; error := "" |}
                 {| audio_buffer := [Byte.x01; Byte.x02]; transcript := "Hi"; done := false |}
  = ([], inr {| audio_buffer := [Byte.x01; Byte.x02]; transcript := "Hi"; done := false |}).
Proof.
  refine (proj1 (unrecognised_tag_is_ignored
                   {| type := "session.created"; delta := ""; error := "" |}
                   {| audio_buffer := [Byte.x01; Byte.x02]; transcript := "Hi"; done := false |}
                   [] _ _ _ _ _)); simpl; try discriminate; reflexivity.
Defined.

(** C1, as amended.  For every message sequence made of transcript deltas
    and of audio deltas whose payload is base64 text decoding to whole
    16-bit samples, in any interleaving, followed by a [response.done]
    message, [process_llm_response] returns the concatenation of the
    transcript delta texts and the concatenation of the decoded audio
    payloads, both in arrival order, reads nothing after the terminal
    message and reports no error; the loop of [script.py] ends with the
    same two accumulators. *)
Theorem streaming_order_preserved (msgs : list message) (fin : message)
    (rest : list recv_result) :
  List.forallb (fun m => is_delta m && whole_samples m) msgs = true ->
  type fin = "response.done" ->
  result (app.process_llm_response (List.map Delivers msgs ++ Delivers fin :: rest))
    = Returns (transcript_text msgs, audio_bytes msgs)
  /\ unread (app.process_llm_response (List.map Delivers msgs ++ Delivers fin :: rest))
    = rest
  /\ List.forallb (fun e => negb (is_st_error e))
       (calls (app.process_llm_response (List.map Delivers msgs ++ Delivers fin :: rest)))
    = true
  /\ result (script.receive_loop (List.map Delivers msgs ++ Delivers fin :: rest)
               initial_locals)
    = Returns {| audio_buffer := audio_bytes msgs; transcript := transcript_text msgs;
                 done := true |}.
Proof.
  intros Hall Hfin.
  assert (Hp : List.forallb passes msgs = true).
  { apply forallb_forall. intros m Hm.
    pose proof (proj1 (forallb_forall _ _) Hall m Hm) as H.
    apply andb_true_iff in H as [Hd Hw]. unfold passes.
    now rewrite (is_delta_not_terminal m Hd), Hw. }
  assert (Hq : List.forallb (fun m => negb (is_terminal m) && decodable m) msgs = true).
  { apply forallb_forall. intros m Hm.
    pose proof (proj1 (forallb_forall _ _) Hall m Hm) as H.
    apply andb_true_iff in H as [Hd Hw].
    now rewrite (is_delta_not_terminal m Hd), (whole_samples_decodable m Hw). }
  destruct (while_not_done_steady app.on_message passes app_on_message_passes msgs
              initial_locals (Delivers fin :: rest) eq_refl Hp)
    as (body & Hc & Hu & Hr & Hn & Hl & He).
  destruct (while_not_done_steady script.on_message _ script_on_message_passes msgs
              initial_locals (Delivers fin :: rest) eq_refl Hq)
    as (body' & _ & _ & Hr' & _).
  fold app.receive_loop in Hc, Hu, Hr. fold script.receive_loop in Hr'.
  rewrite app_loop_response_done in Hc, Hu, Hr by (reflexivity || assumption).
  rewrite script_loop_response_done in Hr' by (reflexivity || assumption).
  simpl in Hc, Hu, Hr, Hr'.
  unfold app.process_llm_response. rewrite Hr, Hc, Hu. simpl.
  repeat split; try assumption.
  rewrite !forallb_app, He. reflexivity.
Qed.

Lemma streaming_order_preserved_witness :
  result (app.process_llm_response
            [Delivers (transcript_delta "Hel"); Delivers (audio_delta "AAEC/w==");
             Delivers (transcript_delta "lo"); Delivers (audio_delta "QUJDRA==");
             Delivers response_done])
  = Returns ("Hello",
             [Byte.x00; Byte.x01; Byte.x02; Byte.xff; Byte.x41; Byte.x42; Byte.x43; Byte.x44]).
Proof.
  exact (proj1 (streaming_order_preserved
                  [transcript_delta "Hel"; audio_delta "AAEC/w==";
                   transcript_delta "lo"; audio_delta "QUJDRA=="]
                  response_done [] eq_refl eq_refl)).
Defined.

(** C1 as stated fails: an audio delta whose payload is valid base64 for an
    odd number of bytes makes [np.frombuffer] raise [ValueError] in
    [play_audio_chunk]; the stream is released and nothing is returned. *)
Lemma odd_sized_audio_delta_is_not_returned :
  base64.b64decode "QQ==" = inr [Byte.x41]
  /\ forallb is_delta [audio_delta "QQ=="] = true
  /\ app.process_llm_response [Delivers (audio_delta "QQ=="); Delivers response_done]
     = Run [OutputStream_new 24000 1 "int16"; OutputStream_start; client_recv;
            OutputStream_stop; OutputStream_close]
           [Delivers response_done] (Raises ValueError)
  /\ result (app.process_llm_response
               [Delivers (audio_delta "QQ=="); Delivers response_done])
     <> Returns (transcript_text [audio_delta "QQ=="], audio_bytes [audio_delta "QQ=="]).
Proof. repeat split; try reflexivity. discriminate. Qed.




(** The life cycle of the stream in a run of [process_llm_response], stated
    for any handler whose calls do not touch it. *)
Lemma lifecycle_of_run (loop_calls : list event) :
  List.forallb (fun e => negb (sink_lifecycle e)) loop_calls = true ->
  released_once_at_exit
    ([OutputStream_new 24000 1 "int16"; OutputStream_start] ++ loop_calls
     ++ [OutputStream_stop; OutputStream_close]).
Proof.
  intros Hb. exists loop_calls. split; [reflexivity|]. split; [assumption|].
  cbn [app List.filter is_release is_acquire].
  rewrite !List.filter_app.
  rewrite (filter_none is_release sink_lifecycle _ release_is_lifecycle Hb).
  rewrite (filter_none is_acquire sink_lifecycle _ acquire_is_lifecycle Hb).
  split; reflexivity.
Qed.

Lemma acquisition_of_run (loop_calls tail : list event) :
  List.forallb (fun e => negb (sink_lifecycle e)) loop_calls = true ->
  (exists later, loop_calls = client_recv :: later) ->
  List.filter is_acquire tail = [] ->
  acquired_before_loop
    ([OutputStream_new 24000 1 "int16"; OutputStream_start] ++ loop_calls ++ tail).
Proof.
  intros Hb [later ->] Ht. exists (later ++ tail)%list. split; [reflexivity|].
  simpl in Hb.
  rewrite List.filter_app, Ht,
    (filter_none is_acquire sink_lifecycle _ acquire_is_lifecycle Hb).
  reflexivity.
Qed.

Lemma app_run_released (inbox : list recv_result) :
  result (app.process_llm_response inbox) <> Blocks ->
  released_once_at_exit (calls (app.process_llm_response inbox)).
Proof.
  pose proof (app_loop_no_lifecycle inbox initial_locals) as Ha.
  unfold app.process_llm_response.
  destruct (result (app.receive_loop inbox initial_locals)) as [s|e|]; cbn [calls result];
    intros Hne; [now apply lifecycle_of_run | now apply lifecycle_of_run | congruence].
Qed.

Lemma streamlit_run_released (inbox : list recv_result) :
  result (streamlit.process_llm_response inbox) <> Blocks ->
  released_once_at_exit (calls (streamlit.process_llm_response inbox)).
Proof.
  pose proof (streamlit_loop_no_lifecycle inbox initial_locals) as Ha.
  unfold streamlit.process_llm_response.
  destruct (result (streamlit.receive_loop inbox initial_locals)) as [s|e|];
    cbn [calls result];
    intros Hne; [now apply lifecycle_of_run | now apply lifecycle_of_run | congruence].
Qed.

(** C8.  In [app.py] and in [streamlit.py] the playback stream is created
    (24000 Hz, mono, int16) and started, each once, before the first
    [recv], on every run; on every run that leaves the loop (the terminal
    messages, an exception raised by [recv] or while a message is handled,
    the [AttributeError] of [st.error] in [app.py] included) it is stopped
    and closed exactly once, as the last two calls, and the loop itself
    never touches its life cycle. *)
Theorem sink_released_on_every_exit (inbox : list recv_result) :
  acquired_before_loop (calls (app.process_llm_response inbox))
  /\ acquired_before_loop (calls (streamlit.process_llm_response inbox))
  /\ (result (app.process_llm_response inbox) <> Blocks ->
      released_once_at_exit (calls (app.process_llm_response inbox)))
  /\ (result (streamlit.process_llm_response inbox) <> Blocks ->
      released_once_at_exit (calls (streamlit.process_llm_response inbox))).
Proof.
  pose proof (app_loop_no_lifecycle inbox initial_locals) as Ha.
  pose proof (streamlit_loop_no_lifecycle inbox initial_locals) as Hs.
  pose proof (while_not_done_starts_with_recv app.on_message inbox initial_locals eq_refl)
    as Hra.
  pose proof (while_not_done_starts_with_recv streamlit.on_message inbox initial_locals
                eq_refl) as Hrs.
  fold app.receive_loop in Hra. fold streamlit.receive_loop in Hrs.
  unfold app.process_llm_response, streamlit.process_llm_response.
  repeat split.
  - destruct (result (app.receive_loop inbox initial_locals)) as [s|e|]; cbn [calls].
    + now apply acquisition_of_run.
    + now apply acquisition_of_run.
    + rewrite <- (app_nil_r (calls (app.receive_loop inbox initial_locals))).
      now apply acquisition_of_run.
  - destruct (result (streamlit.receive_loop inbox initial_locals)) as [s|e|]; cbn [calls].
    + now apply acquisition_of_run.
    + now apply acquisition_of_run.
    + rewrite <- (app_nil_r (calls (streamlit.receive_loop inbox initial_locals))).
      now apply acquisition_of_run.
  - apply (app_run_released inbox).
  - apply (streamlit_run_released inbox).
Qed.

Lemma sink_released_on_every_exit_witness :
  (* normal completion *)
  (acquired_before_loop
     (calls (app.process_llm_response
               [Delivers (audio_delta "AAEC/w=="); Delivers response_done]))
   /\ released_once_at_exit
        (calls (app.process_llm_response
                  [Delivers (audio_delta "AAEC/w=="); Delivers response_done]))
   /\ calls (app.process_llm_response
               [Delivers (audio_delta "AAEC/w=="); Delivers response_done])
      = [OutputStream_new 24000 1 "int16"; OutputStream_start;
         client_recv; OutputStream_write [256; -254]%Z; client_recv;
         OutputStream_stop; OutputStream_close])
  (* error reported by the service *)
  /\ (released_once_at_exit
        (calls (app.process_llm_response [Delivers (error_message "quota exceeded")]))
      /\ released_once_at_exit
           (calls (streamlit.process_llm_response [Delivers (error_message "quota exceeded")]))
      /\ calls (streamlit.process_llm_response [Delivers (error_message "quota exceeded")])
         = [OutputStream_new 24000 1 "int16"; OutputStream_start;
            client_recv; st_error "Error: quota exceeded";
            OutputStream_stop; OutputStream_close])
  (* failure of the transport during [recv] *)
  /\ (released_once_at_exit
        (calls (streamlit.process_llm_response
                  [Delivers (transcript_delta "x"); Fails "closed"]))
      /\ calls (streamlit.process_llm_response
                  [Delivers (transcript_delta "x"); Fails "closed"])
         = [OutputStream_new 24000 1 "int16"; OutputStream_start;
            client_recv; placeholder_markdown "x"; client_recv;
            OutputStream_stop; OutputStream_close])
  (* a session that goes silent: acquired, the loop not left *)
  /\ acquired_before_loop (calls (app.process_llm_response [])).
Proof.
  split; [|split; [|split]].
  - destruct (sink_released_on_every_exit
                [Delivers (audio_delta "AAEC/w=="); Delivers response_done])
      as (Ha & _ & Hr & _).
    split; [exact Ha|]. split; [apply Hr; discriminate | reflexivity].
  - destruct (sink_released_on_every_exit [Delivers (error_message "quota exceeded")])
      as (_ & _ & Hra & Hrs).
    split; [apply Hra; discriminate|]. split; [apply Hrs; discriminate | reflexivity].
  - destruct (sink_released_on_every_exit [Delivers (transcript_delta "x"); Fails "closed"])
      as (_ & _ & _ & Hrs).
    split; [apply Hrs; discriminate | reflexivity].
  - exact (proj1 (sink_released_on_every_exit [])).
Defined.

(** ** WAV files *)

Lemma byte_round_trip (v : Z) : struct.Z_of_byte (struct.byte_of_Z v) = (v mod 256)%Z.
Proof.
  unfold struct.Z_of_byte, struct.byte_of_Z, N_of_byte, byte_of_N.
  rewrite ascii_of_byte_of_ascii, N_ascii_embedding.
  - apply Z2N.id. apply Z.mod_pos_bound. lia.
  - change 256%N with (Z.to_N 256). apply Z2N.inj_lt; try lia.
    + apply Z.mod_pos_bound; lia.
    + apply Z.mod_pos_bound; lia.
Qed.

Lemma unpack_le32 (v : Z) :
  (0 <= v <= 4294967295)%Z -> struct.unpack_L (struct.le32 v) = Some v.
Proof.
  intros H. unfold struct.unpack_L, struct.le32. rewrite !byte_round_trip.
  f_equal.
  change 65536%Z with (256 * 256)%Z. change 16777216%Z with (256 * 256 * 256)%Z.
  rewrite <- !Z.div_div by lia.
  Z.div_mod_to_equations. lia.
Qed.

Lemma pack_L_in_range (v : Z) :
  (0 <= v <= 4294967295)%Z -> struct.pack_L v = inr (struct.le32 v).
Proof.
  intros H. unfold struct.pack_L.
  destruct (Z.leb_spec 0 v); [|lia]. destruct (Z.leb_spec v 4294967295); [|lia].
  reflexivity.
Qed.

Lemma pack_L_out_of_range (v : Z) :
  (4294967295 < v)%Z -> struct.pack_L v = inl StructError.
Proof.
  intros H. unfold struct.pack_L.
  destruct (Z.leb_spec v 4294967295); [lia|]. now rewrite andb_false_r.
Qed.

Lemma pack_header_configured (d : Z) :
  (0 <= d)%Z -> (36 + d <= 4294967295)%Z ->
  wave.pack_header (36 + d) 1 24000 2 d
  = inr (struct.le32 (36 + d) ++ fmt_part ++ struct.le32 d)%list.
Proof.
  intros H0 H1. unfold wave.pack_header.
  rewrite (pack_L_in_range (36 + d)), (pack_L_in_range d) by lia.
  reflexivity.
Qed.

Lemma write_at_app (pre old new post : list byte) :
  List.length new = List.length old ->
  wave.write_at (List.length pre) new (pre ++ old ++ post) = (pre ++ new ++ post)%list.
Proof.
  intros Hlen. unfold wave.write_at.
  rewrite firstn_app, firstn_all, Nat.sub_diag. simpl. rewrite app_nil_r.
  rewrite skipn_app.
  replace (List.length pre + List.length new - List.length pre) with (List.length old) by lia.
  rewrite skipn_all2 by lia. simpl.
  rewrite skipn_app, skipn_all, Nat.sub_diag. reflexivity.
Qed.

Lemma write_header_configured (n : Z) :
  (0 <= n)%Z -> (36 + n <= 4294967295)%Z ->
  wave.write_header n configured
  = inr {| wave.file := canonical_header (n / 2 * 2);
           wave.nchannels := 1; wave.sampwidth := 2; wave.framerate := 24000;
           wave.nframes := n / 2; wave.datawritten := 0; wave.datalength := n / 2 * 2;
           wave.headerwritten := true;
           wave.form_length_pos := 4; wave.data_length_pos := 40 |}.
Proof.
  intros H0 H1. unfold wave.write_header.
  cbn [configured wave.file wave.nchannels wave.sampwidth wave.framerate wave.nframes
       wave.datawritten].
  change (0 =? 0)%Z with true. cbv iota.
  change (1 * 2)%Z with 2%Z.
  replace (n / 2 * 1 * 2)%Z with (n / 2 * 2)%Z by lia.
  rewrite pack_header_configured by (Z.div_mod_to_equations; lia).
  reflexivity.
Qed.

Lemma patch_canonical (d n : Z) (samples : list byte) :
  wave.write_at 40 (struct.le32 n)
    (wave.write_at 4 (struct.le32 (36 + n)) (canonical_header d ++ samples))
  = (canonical_header n ++ samples)%list.
Proof.
  unfold canonical_header.
  rewrite <- !app_assoc.
  rewrite (write_at_app riff_tag (struct.le32 (36 + d)) (struct.le32 (36 + n))) by reflexivity.
  rewrite (app_assoc riff_tag), (app_assoc (riff_tag ++ _)).
  rewrite (write_at_app ((riff_tag ++ struct.le32 (36 + n)) ++ fmt_part)
             (struct.le32 d) (struct.le32 n)) by reflexivity.
  now rewrite <- !app_assoc.
Qed.

(** Writing the samples with the configured writer: the file holds the
    canonical header for their exact length, then the samples. *)
Lemma writeframes_configured (samples : list byte) :
  (36 + Z.of_nat (List.length samples) <= 4294967295)%Z ->
  exists wf,
    wave.writeframes samples configured = inr wf
    /\ wave.file wf = wav_bytes samples
    /\ wave.headerwritten wf = true
    /\ wave.datalength wf = wave.datawritten wf.
Proof.
  intros Hn. set (n := Z.of_nat (List.length samples)) in *.
  assert (H0 : (0 <= n)%Z) by (unfold n; lia).
  unfold wave.writeframes, wave.writeframesraw, wave.ensure_header_written.
  change (wave.headerwritten configured) with false.
  change (wave.nchannels configured =? 0)%Z with false.
  change (wave.sampwidth configured =? 0)%Z with false.
  change (wave.framerate configured =? 0)%Z with false.
  cbv iota. fold n.
  rewrite write_header_configured by assumption.
  cbn [bind wave.file wave.nchannels wave.sampwidth wave.framerate wave.nframes
       wave.datawritten wave.datalength wave.headerwritten wave.form_length_pos
       wave.data_length_pos].
  rewrite Z.add_0_l.
  destruct (Z.eqb_spec (n / 2 * 2) n) as [Heven|Hodd]; cbn [negb].
  - eexists. split; [reflexivity|].
    cbn [wave.file wave.headerwritten wave.datalength wave.datawritten].
    unfold wav_bytes. fold n. rewrite Heven. auto.
  - unfold wave.patchheader.
    cbn [wave.file wave.nchannels wave.sampwidth wave.framerate wave.nframes
         wave.datawritten wave.datalength wave.headerwritten wave.form_length_pos
         wave.data_length_pos].
    destruct (Z.eqb_spec n (n / 2 * 2)) as [Heq|_]; [congruence|].
    rewrite (pack_L_in_range (36 + n)), (pack_L_in_range n) by lia.
    cbn [bind]. rewrite patch_canonical.
    eexists. split; [reflexivity|].
    cbn [wave.file wave.headerwritten wave.datalength wave.datawritten].
    unfold wav_bytes. fold n. auto.
Qed.

Lemma close_written (wf : wave.Wave_write) :
  wave.headerwritten wf = true -> wave.datalength wf = wave.datawritten wf ->
  wave.close wf = inr (wave.file wf).
Proof.
  intros Hh Hd. unfold wave.close, wave.ensure_header_written. rewrite Hh.
  cbn [bind]. rewrite Hd, Z.eqb_refl. reflexivity.
Qed.

(** Both [save_to_wav_file] write [wav_bytes] of the samples, under the
    given name or under the name made from the clock. *)
Lemma app_save_to_wav_file_writes (samples : list byte) (filename : option string) (w : world) :
  (36 + Z.of_nat (List.length samples) <= 4294967295)%Z ->
  app.save_to_wav_file samples filename w
  = inr (match filename with
         | None => "audio_output_" ++ now w ++ ".wav"
         | Some f => f
         end,
         write_file (match filename with
                     | None => "audio_output_" ++ now w ++ ".wav"
                     | Some f => f
                     end) (wav_bytes samples) w).
Proof.
  intros Hn. destruct (writeframes_configured samples Hn) as (wf & Hw & Hf & Hh & Hd).
  unfold app.save_to_wav_file.
  change (wave.setnchannels app.CHANNELS wave.open_wb) with (inr (A:=exception) 
    {| wave.file := []; wave.nchannels := 1; wave.sampwidth := 0; wave.framerate := 0;
       wave.nframes := 0; wave.datawritten := 0; wave.datalength := 0;
       wave.headerwritten := false; wave.form_length_pos := 0; wave.data_length_pos := 0 |}).
  cbn [bind].
  change (wave.setsampwidth 2 _) with (inr (A:=exception)
    {| wave.file := []; wave.nchannels := 1; wave.sampwidth := 2; wave.framerate := 0;
       wave.nframes := 0; wave.datawritten := 0; wave.datalength := 0;
       wave.headerwritten := false; wave.form_length_pos := 0; wave.data_length_pos := 0 |}).
  cbn [bind].
  change (wave.setframerate app.SAMPLE_RATE _) with (inr (A:=exception) configured).
  cbn [bind]. rewrite Hw. cbn [bind].
  rewrite (close_written wf Hh Hd), Hf. reflexivity.
Qed.

Lemma script_save_to_wav_file_writes (samples : list byte) (filename : option string)
    (w : world) :
  (36 + Z.of_nat (List.length samples) <= 4294967295)%Z ->
  script.save_to_wav_file samples filename w
  = inr (match filename with
         | None => "audio_output_" ++ now w ++ ".wav"
         | Some f => f
         end,
         write_file (match filename with
                     | None => "audio_output_" ++ now w ++ ".wav"
                     | Some f => f
                     end) (wav_bytes samples) w).
Proof.
  intros Hn. destruct (writeframes_configured samples Hn) as (wf & Hw & Hf & Hh & Hd).
  unfold script.save_to_wav_file.
  change (wave.setnchannels 1 wave.open_wb) with (inr (A:=exception) 
    {| wave.file := []; wave.nchannels := 1; wave.sampwidth := 0; wave.framerate := 0;
       wave.nframes := 0; wave.datawritten := 0; wave.datalength := 0;
       wave.headerwritten := false; wave.form_length_pos := 0; wave.data_length_pos := 0 |}).
  cbn [bind].
  change (wave.setsampwidth (16 / 8) _) with (inr (A:=exception)
    {| wave.file := []; wave.nchannels := 1; wave.sampwidth := 2; wave.framerate := 0;
       wave.nframes := 0; wave.datawritten := 0; wave.datalength := 0;
       wave.headerwritten := false; wave.form_length_pos := 0; wave.data_length_pos := 0 |}).
  cbn [bind].
  change (wave.setframerate 24000 _) with (inr (A:=exception) configured).
  cbn [bind]. rewrite Hw. cbn [bind].
  rewrite (close_written wf Hh Hd), Hf. reflexivity.
Qed.

Lemma fmt_part_bytes :
  fmt_part =
  [Byte.x57; Byte.x41; Byte.x56; Byte.x45; Byte.x66; Byte.x6d; Byte.x74; Byte.x20;
   Byte.x10; Byte.x00; Byte.x00; Byte.x00; Byte.x01; Byte.x00; Byte.x01; Byte.x00;
   Byte.xc0; Byte.x5d; Byte.x00; Byte.x00; Byte.x80; Byte.xbb; Byte.x00; Byte.x00;
   Byte.x02; Byte.x00; Byte.x10; Byte.x00; Byte.x64; Byte.x61; Byte.x74; Byte.x61].
Proof. reflexivity. Qed.

Lemma unpack_fmt_size :
  struct.unpack_L [Byte.x10; Byte.x00; Byte.x00; Byte.x00] = Some 16%Z.
Proof. reflexivity. Qed.

Lemma read_fmt_chunk_canonical :
  wave.read_fmt_chunk
    [Byte.x01; Byte.x00; Byte.x01; Byte.x00; Byte.xc0; Byte.x5d; Byte.x00; Byte.x00;
     Byte.x80; Byte.xbb; Byte.x00; Byte.x00; Byte.x02; Byte.x00; Byte.x10; Byte.x00]
  = Some {| wave.fmt_channels := 1; wave.fmt_rate := 24000; wave.fmt_sampwidth := 2 |}.
Proof. reflexivity. Qed.

(** One chunk read by [read_chunks]. *)
Lemma read_chunks_step (fuel : nat) (bs : list byte) (f : option wave.fmt) :
  wave.read_chunks (S fuel) bs f =
  match struct.unpack_L (firstn 4 (skipn 4 bs)) with
  | None => None
  | Some size =>
      let name := firstn 4 bs in
      let body := firstn (Z.to_nat size) (skipn 8 bs) in
      let next := skipn (8 + Z.to_nat size + Z.to_nat (size mod 2)) bs in
      if wave.bytes_eqb name (bytes_of_string "fmt ") then
        match wave.read_fmt_chunk body with
        | None => None
        | Some f' => wave.read_chunks fuel next (Some f')
        end
      else if wave.bytes_eqb name (bytes_of_string "data") then
        match f with
        | None => None
        | Some f' =>
            let framesize := (wave.fmt_channels f' * wave.fmt_sampwidth f')%Z in
            let nframes := (size / framesize)%Z in
            Some {| wave.channels := wave.fmt_channels f'; wave.sample_rate := wave.fmt_rate f';
                    wave.sample_width := wave.fmt_sampwidth f'; wave.frame_count := nframes;
                    wave.data := firstn (Z.to_nat (nframes * framesize)) body |}
        end
      else wave.read_chunks fuel next f
  end.
Proof. reflexivity. Qed.

#[local] Arguments struct.unpack_L : simpl never.
#[local] Arguments wave.read_fmt_chunk : simpl never.

(** Reading back a canonical file: the format fields, the number of
    whole frames of two bytes, and the bytes of these frames. *)
Lemma read_wav_bytes (samples : list byte) :
  (36 + Z.of_nat (List.length samples) <= 4294967295)%Z ->
  wave.read (wav_bytes samples)
  = Some {| wave.channels := 1; wave.sample_rate := 24000; wave.sample_width := 2;
            wave.frame_count := Z.of_nat (List.length samples) / 2;
            wave.data :=
              firstn (Z.to_nat (Z.of_nat (List.length samples) / 2 * 2)) samples |}.
Proof.
  intros Hn. set (n := Z.of_nat (List.length samples)) in *.
  pose proof (unpack_le32 (36 + n) ltac:(lia)) as Hform.
  pose proof (unpack_le32 n ltac:(lia)) as Hdata.
  unfold wav_bytes, canonical_header. fold n. rewrite fmt_part_bytes.
  unfold struct.le32 in *.
  generalize dependent (struct.byte_of_Z (36 + n)).
  generalize dependent (struct.byte_of_Z ((36 + n) / 256)).
  generalize dependent (struct.byte_of_Z ((36 + n) / 65536)).
  generalize dependent (struct.byte_of_Z ((36 + n) / 16777216)).
  generalize dependent (struct.byte_of_Z n).
  generalize dependent (struct.byte_of_Z (n / 256)).
  generalize dependent (struct.byte_of_Z (n / 65536)).
  generalize dependent (struct.byte_of_Z (n / 16777216)).
  intros x3 x2 x1 x0 Hdata y3 y2 y1 y0 Hform.
  change riff_tag with [Byte.x52; Byte.x49; Byte.x46; Byte.x46].
  rewrite <- !app_assoc. cbn [app].
  unfold wave.read. cbn [firstn skipn].
  rewrite Hform.
  replace (Z.to_nat (36 + n)) with (36 + List.length samples)%nat by (unfold n; lia).
  cbn [firstn skipn Nat.add length].
  rewrite firstn_all.
  change (wave.bytes_eqb _ (bytes_of_string "RIFF")) with true.
  change (wave.bytes_eqb _ (bytes_of_string "WAVE")) with true.
  cbv iota.
  (* the [fmt ] chunk *)
  rewrite read_chunks_step. cbn [firstn skipn].
  rewrite unpack_fmt_size. cbv zeta.
  change (Z.to_nat 16) with 16%nat. change (Z.to_nat (16 mod 2)) with 0%nat.
  cbn [firstn skipn Nat.add].
  change (wave.bytes_eqb [Byte.x66; Byte.x6d; Byte.x74; Byte.x20] (bytes_of_string "fmt "))
    with true.
  cbv iota. rewrite read_fmt_chunk_canonical.
  (* the [data] chunk *)
  rewrite read_chunks_step. cbn [firstn skipn].
  change (firstn 0 samples) with (@nil byte). change (skipn 0 samples) with samples.
  rewrite Hdata. cbv zeta.
  replace (Z.to_nat n) with (List.length samples) by (unfold n; lia).
  rewrite firstn_all.
  change (wave.bytes_eqb [Byte.x64; Byte.x61; Byte.x74; Byte.x61] (bytes_of_string "fmt "))
    with false.
  change (wave.bytes_eqb [Byte.x64; Byte.x61; Byte.x74; Byte.x61] (bytes_of_string "data"))
    with true.
  reflexivity.
Qed.

(** A buffer of whole frames is read back as it is; of a buffer with a
    byte after its last whole frame, that byte is not read back. *)
Lemma whole_frames_all (samples : list byte) :
  Nat.even (List.length samples) = true ->
  firstn (Z.to_nat (Z.of_nat (List.length samples) / 2 * 2)) samples = samples.
Proof.
  intros He. apply Nat.even_spec in He as [k Hk].
  replace (Z.to_nat (Z.of_nat (List.length samples) / 2 * 2)) with (List.length samples).
  - apply firstn_all.
  - rewrite Hk. replace (Z.of_nat (2 * k)) with (Z.of_nat k * 2)%Z by lia.
    rewrite Z.div_mul by lia. lia.
Qed.

Lemma whole_frames_odd (samples : list byte) :
  Nat.odd (List.length samples) = true ->
  firstn (Z.to_nat (Z.of_nat (List.length samples) / 2 * 2)) samples
  = firstn (List.length samples - 1) samples.
Proof.
  intros Ho. apply Nat.odd_spec in Ho as [k Hk].
  replace (Z.to_nat (Z.of_nat (List.length samples) / 2 * 2))
    with (List.length samples - 1)%nat; [reflexivity|].
  rewrite Hk. replace (Z.of_nat (2 * k + 1)) with (1 + Z.of_nat k * 2)%Z by lia.
  rewrite Z.div_add by lia. change (1 / 2)%Z with 0%Z. lia.
Qed.

Lemma write_file_twice (path : string) (content : list byte) (w : world) :
  write_file path content (write_file path content w) = write_file path content w.
Proof. unfold write_file. simpl. now rewrite insert_insert_eq. Qed.

(** A header field that does not fit 32 bits: [struct.pack] raises, and so
    does the writer. *)
Lemma writeframes_too_long (samples : list byte) :
  (4294967295 < 36 + Z.of_nat (List.length samples) / 2 * 2)%Z ->
  wave.writeframes samples configured = inl StructError.
Proof.
  intros Hn. set (n := Z.of_nat (List.length samples)) in *.
  unfold wave.writeframes, wave.writeframesraw, wave.ensure_header_written.
  change (wave.headerwritten configured) with false.
  change (wave.nchannels configured =? 0)%Z with false.
  change (wave.sampwidth configured =? 0)%Z with false.
  change (wave.framerate configured =? 0)%Z with false.
  cbv iota. fold n. unfold wave.write_header.
  cbn [configured wave.file wave.nchannels wave.sampwidth wave.framerate wave.nframes
       wave.datawritten].
  change (0 =? 0)%Z with true. cbv iota.
  change (1 * 2)%Z with 2%Z.
  replace (n / 2 * 1 * 2)%Z with (n / 2 * 2)%Z by lia.
  unfold wave.pack_header. rewrite pack_L_out_of_range by assumption. reflexivity.
Qed.

Lemma app_save_to_wav_file_too_long (samples : list byte) (filename : option string)
    (w : world) :
  (4294967295 < 36 + Z.of_nat (List.length samples) / 2 * 2)%Z ->
  app.save_to_wav_file samples filename w = inl StructError.
Proof.
  intros Hn. unfold app.save_to_wav_file.
  change (wave.setnchannels app.CHANNELS wave.open_wb) with (inr (A:=exception) 
    {| wave.file := []; wave.nchannels := 1; wave.sampwidth := 0; wave.framerate := 0;
       wave.nframes := 0; wave.datawritten := 0; wave.datalength := 0;
       wave.headerwritten := false; wave.form_length_pos := 0; wave.data_length_pos := 0 |}).
  cbn [bind].
  change (wave.setsampwidth 2 _) with (inr (A:=exception)
    {| wave.file := []; wave.nchannels := 1; wave.sampwidth := 2; wave.framerate := 0;
       wave.nframes := 0; wave.datawritten := 0; wave.datalength := 0;
       wave.headerwritten := false; wave.form_length_pos := 0; wave.data_length_pos := 0 |}).
  cbn [bind].
  change (wave.setframerate app.SAMPLE_RATE _) with (inr (A:=exception) configured).
  cbn [bind]. rewrite (writeframes_too_long samples Hn). reflexivity.
Qed.

(** The functions that [streamlit.py] shares with [app.py] word for word. *)
Lemma streamlit_save_to_wav_file_app :
  streamlit.save_to_wav_file = app.save_to_wav_file.
Proof. reflexivity. Qed.

Lemma streamlit_create_audio_file_app :
  streamlit.create_audio_file = app.create_audio_file.
Proof. reflexivity. Qed.

Lemma read_wav_bytes_whole (samples : list byte) :
  (36 + Z.of_nat (List.length samples) <= 4294967295)%Z ->
  Nat.even (List.length samples) = true ->
  wave.read (wav_bytes samples)
  = Some {| wave.channels := 1; wave.sample_rate := 24000; wave.sample_width := 2;
            wave.frame_count := Z.of_nat (List.length samples) / 2;
            wave.data := samples |}.
Proof.
  intros Hn He. rewrite read_wav_bytes by assumption. now rewrite whole_frames_all.
Qed.

(** C4, as amended.  For every byte sequence whose length fits the 32-bit
    size fields of the container (at most 4294967259 bytes),
    [save_to_wav_file] of [app.py], [streamlit.py] and [script.py] writes,
    under the given name or the name made from the clock, a file that
    depends on the bytes alone: the canonical 44-byte header followed by
    the bytes verbatim.  No other file is touched, and a second call with
    the same input leaves the very same file.  The standard reader
    ([wave.open(path, 'rb')]) gets from the file channels = 1, sample
    rate = 24000 and a sample width of 2 bytes, that is 16 bits per sample,
    and returns the whole frames of the data chunk: exactly the bytes when
    their number is even, all but the last one when it is odd. *)
Theorem wav_round_trip (samples : list byte) (filename : option string) (w : world) :
  (36 + Z.of_nat (List.length samples) <= 4294967295)%Z ->
  exists path,
    path = match filename with
           | None => "audio_output_" ++ now w ++ ".wav"
           | Some f => f
           end
    /\ app.save_to_wav_file samples filename w
       = inr (path, write_file path (wav_bytes samples) w)
    /\ streamlit.save_to_wav_file samples filename w
       = inr (path, write_file path (wav_bytes samples) w)
    /\ script.save_to_wav_file samples filename w
       = inr (path, write_file path (wav_bytes samples) w)
    /\ files (write_file path (wav_bytes samples) w) !! path = Some (wav_bytes samples)
    /\ (forall other, other <> path ->
          files (write_file path (wav_bytes samples) w) !! other = files w !! other)
    /\ app.save_to_wav_file samples filename (write_file path (wav_bytes samples) w)
       = inr (path, write_file path (wav_bytes samples) w)
    /\ option_map wave.channels (wave.read (wav_bytes samples)) = Some 1%Z
    /\ option_map wave.sample_rate (wave.read (wav_bytes samples)) = Some 24000%Z
    /\ option_map wave.bits_per_sample (wave.read (wav_bytes samples)) = Some 16%Z
    /\ (Nat.even (List.length samples) = true ->
        option_map wave.data (wave.read (wav_bytes samples)) = Some samples)
    /\ (Nat.odd (List.length samples) = true ->
        option_map wave.data (wave.read (wav_bytes samples))
        = Some (List.removelast samples)).
Proof.
  intros Hn. eexists. split; [reflexivity|].
  split; [apply app_save_to_wav_file_writes; assumption|].
  split; [rewrite streamlit_save_to_wav_file_app;
          apply app_save_to_wav_file_writes; assumption|].
  split; [apply script_save_to_wav_file_writes; assumption|].
  split; [unfold write_file; simpl; apply lookup_insert_eq|].
  split; [intros other Hne; unfold write_file; simpl; apply lookup_insert_ne; congruence|].
  split.
  { rewrite app_save_to_wav_file_writes by assumption.
    destruct filename as [f|]; unfold write_file; cbn [files now next_temp_name];
      now rewrite insert_insert_eq. }
  rewrite read_wav_bytes by assumption. cbn [option_map wave.channels wave.sample_rate
    wave.data wave.bits_per_sample wave.sample_width].
  split; [reflexivity|]. split; [reflexivity|]. split; [reflexivity|]. split.
  - intros He. now rewrite whole_frames_all.
  - intros Ho. rewrite whole_frames_odd by assumption.
    rewrite removelast_firstn_len, Nat.sub_1_r. reflexivity.
Qed.

Lemma wav_round_trip_witness :
  wave.read (wav_bytes [Byte.x01; Byte.x02; Byte.x03; Byte.x04])
  = Some {| wave.channels := 1; wave.sample_rate := 24000; wave.sample_width := 2;
            wave.frame_count := 2;
            wave.data := [Byte.x01; Byte.x02; Byte.x03; Byte.x04] |}
  /\ option_map wave.data (wave.read (wav_bytes [Byte.x01; Byte.x02; Byte.x03; Byte.x04]))
     = Some [Byte.x01; Byte.x02; Byte.x03; Byte.x04]
  /\ app.save_to_wav_file [Byte.x01; Byte.x02; Byte.x03; Byte.x04] (Some "out.wav")
       {| files := ∅; now := "20240101_120000"; next_temp_name := "/tmp/tmpabc.wav" |}
     = inr ("out.wav",
            write_file "out.wav" (wav_bytes [Byte.x01; Byte.x02; Byte.x03; Byte.x04])
              {| files := ∅; now := "20240101_120000";
                 next_temp_name := "/tmp/tmpabc.wav" |}).
Proof.
  split; [vm_compute; reflexivity|].
  destruct (wav_round_trip [Byte.x01; Byte.x02; Byte.x03; Byte.x04] (Some "out.wav")
              {| files := ∅; now := "20240101_120000"; next_temp_name := "/tmp/tmpabc.wav" |})
    as (path & Hp & Ha & _ & _ & _ & _ & _ & _ & _ & _ & He & _).
  - simpl. lia.
  - subst path. split; [exact (He eq_refl) | exact Ha].
Defined.

(** C4 as stated fails, in two ways.  A buffer of three bytes is a
    non-empty byte sequence; it is written verbatim after the header, but
    the standard reader finds one frame of two bytes in the data chunk and
    returns these two bytes, not the three.  A buffer of 4294967260 bytes
    would need the size 4294967296 in a 32-bit field of the header;
    [struct.pack] raises and no WAV file is produced. *)
Lemma odd_or_oversized_buffer_is_not_recovered :
  app.save_to_wav_file [Byte.x01; Byte.x02; Byte.x03] (Some "out.wav")
    {| files := ∅; now := "20240101_120000"; next_temp_name := "/tmp/tmpabc.wav" |}
  = inr ("out.wav",
         write_file "out.wav" (wav_bytes [Byte.x01; Byte.x02; Byte.x03])
           {| files := ∅; now := "20240101_120000"; next_temp_name := "/tmp/tmpabc.wav" |})
  /\ wave.read (wav_bytes [Byte.x01; Byte.x02; Byte.x03])
     = Some {| wave.channels := 1; wave.sample_rate := 24000; wave.sample_width := 2;
               wave.frame_count := 1; wave.data := [Byte.x01; Byte.x02] |}
  /\ option_map wave.data (wave.read (wav_bytes [Byte.x01; Byte.x02; Byte.x03]))
     <> Some [Byte.x01; Byte.x02; Byte.x03]
  /\ List.repeat Byte.x00 (N.to_nat 4294967260) <> []
  /\ app.save_to_wav_file (List.repeat Byte.x00 (N.to_nat 4294967260)) (Some "out.wav")
       {| files := ∅; now := "20240101_120000"; next_temp_name := "/tmp/tmpabc.wav" |}
     = inl StructError.
Proof.
  split; [vm_compute; reflexivity|].
  split; [vm_compute; reflexivity|].
  split; [vm_compute; discriminate|].
  split.
  - intros H. apply (f_equal (@List.length byte)) in H.
    rewrite repeat_length in H. simpl in H.
    apply (f_equal N.of_nat) in H. rewrite N2Nat.id in H. discriminate H.
  - apply app_save_to_wav_file_too_long.
    rewrite repeat_length, N_nat_Z. reflexivity.
Qed.

(** C5, as amended.  The empty buffer is not an error of the serialiser:
    [save_to_wav_file] writes a header-only file for it.  The check is made
    by the caller, in [app.py] and in [streamlit.py] alike: for an empty
    buffer [create_audio_file] returns [None], raises nothing and touches
    no file, and [display_audio_response] given [None] shows nothing (no
    audio panel, no download button).  For every non-empty buffer that fits
    the 32-bit size fields [create_audio_file] returns the name of the
    temporary file, which then holds the WAV serialisation of the buffer;
    the response display of [streamlit.py] offers exactly these bytes for
    download. *)
Theorem empty_audio_policy (first : byte) (more : list byte) (w : world) :
  (36 + Z.of_nat (List.length (first :: more)) <= 4294967295)%Z ->
  app.create_audio_file [] w = inr (None, w)
  /\ streamlit.create_audio_file [] w = inr (None, w)
  /\ app.display_audio_response None w = ([], inr w)
  /\ streamlit.display_audio_response None w = ([], inr w)
  /\ app.save_to_wav_file [] (Some (next_temp_name w)) w
     = inr (next_temp_name w, write_file (next_temp_name w) (canonical_header 0) w)
  /\ app.create_audio_file (first :: more) w
     = inr (Some (next_temp_name w),
            write_file (next_temp_name w) (wav_bytes (first :: more)) w)
  /\ streamlit.create_audio_file (first :: more) w
     = inr (Some (next_temp_name w),
            write_file (next_temp_name w) (wav_bytes (first :: more)) w)
  /\ (next_temp_name w <> "" ->
      streamlit.display_audio_response (Some (next_temp_name w))
        (write_file (next_temp_name w) (wav_bytes (first :: more)) w)
      = ([st_subheader "Audio Response";
          st_audio (wav_bytes (first :: more)) "audio/wav";
          st_download_button "Download Audio" (wav_bytes (first :: more))
            "ai_response.wav" "audio/wav"],
         inr (unlink (next_temp_name w)
                (write_file (next_temp_name w) (wav_bytes (first :: more)) w)))).
Proof.
  intros Hn.
  assert (Hc : app.create_audio_file (first :: more) w
               = inr (Some (next_temp_name w),
                      write_file (next_temp_name w) (wav_bytes (first :: more)) w)).
  { unfold app.create_audio_file.
    rewrite app_save_to_wav_file_writes by assumption.
    cbn [bind fst snd]. unfold write_file; cbn [files now next_temp_name].
    now rewrite insert_insert_eq. }
  split; [reflexivity|]. split; [reflexivity|]. split; [reflexivity|].
  split; [reflexivity|].
  split.
  { rewrite (app_save_to_wav_file_writes [] (Some (next_temp_name w)) w) by (simpl; lia).
    unfold wav_bytes. now rewrite app_nil_r. }
  split; [exact Hc|].
  split; [rewrite streamlit_create_audio_file_app; exact Hc|].
  intros Hne. unfold streamlit.display_audio_response.
  destruct (next_temp_name w) as [|c path] eqn:Hp; [congruence|].
  unfold write_file at 1; cbn [files]. rewrite lookup_insert_eq. reflexivity.
Qed.

Lemma empty_audio_policy_witness :
  app.create_audio_file [Byte.x01; Byte.x02]
    {| files := ∅; now := "20240101_120000"; next_temp_name := "/tmp/tmpabc.wav" |}
  = inr (Some "/tmp/tmpabc.wav",
         write_file "/tmp/tmpabc.wav" (wav_bytes [Byte.x01; Byte.x02])
           {| files := ∅; now := "20240101_120000"; next_temp_name := "/tmp/tmpabc.wav" |}).
Proof.
  refine (proj1 (proj2 (proj2 (proj2 (proj2 (proj2
            (empty_audio_policy Byte.x01 [Byte.x02]
               {| files := ∅; now := "20240101_120000";
                  next_temp_name := "/tmp/tmpabc.wav" |} _))))))).
  simpl. lia.
Defined.

(** C5 as stated fails: serialising the empty byte sequence raises nothing;
    [save_to_wav_file] returns the file name and the file holds the 44
    bytes of a header with data size 0, which a reader accepts; and
    [create_audio_file] returns [None] instead of raising. *)
Lemma empty_buffer_is_serialised_without_error :
  app.save_to_wav_file [] (Some "out.wav")
    {| files := ∅; now := "20240101_120000"; next_temp_name := "/tmp/tmpabc.wav" |}
  = inr ("out.wav",
         write_file "out.wav"
           [Byte.x52; Byte.x49; Byte.x46; Byte.x46; Byte.x24; Byte.x00; Byte.x00; Byte.x00;
            Byte.x57; Byte.x41; Byte.x56; Byte.x45; Byte.x66; Byte.x6d; Byte.x74; Byte.x20;
            Byte.x10; Byte.x00; Byte.x00; Byte.x00; Byte.x01; Byte.x00; Byte.x01; Byte.x00;
            Byte.xc0; Byte.x5d; Byte.x00; Byte.x00; Byte.x80; Byte.xbb; Byte.x00; Byte.x00;
            Byte.x02; Byte.x00; Byte.x10; Byte.x00; Byte.x64; Byte.x61; Byte.x74; Byte.x61;
            Byte.x00; Byte.x00; Byte.x00; Byte.x00]
           {| files := ∅; now := "20240101_120000"; next_temp_name := "/tmp/tmpabc.wav" |})
  /\ wave.read (wav_bytes [])
     = Some {| wave.channels := 1; wave.sample_rate := 24000; wave.sample_width := 2;
               wave.frame_count := 0; wave.data := [] |}
  /\ app.create_audio_file []
       {| files := ∅; now := "20240101_120000"; next_temp_name := "/tmp/tmpabc.wav" |}
     = inr (None,
            {| files := ∅; now := "20240101_120000"; next_temp_name := "/tmp/tmpabc.wav" |})
  /\ ~ (exists exn,
          app.save_to_wav_file [] (Some "out.wav")
            {| files := ∅; now := "20240101_120000"; next_temp_name := "/tmp/tmpabc.wav" |}
          = inl exn).
Proof.
  split; [vm_compute; reflexivity|].
  split; [vm_compute; reflexivity|].
  split; [reflexivity|].
  intros [exn H]. vm_compute in H. discriminate H.
Qed.

(** ** The model registry *)

Section Dict.

Context {V : Type}.

Lemma dict_get_set_eq (k : string) (v : V) (d : list (string * V)) :
  dict.get k (dict.set k v d) = Some v.
Proof.
  induction d as [|[k' v'] d IH]; simpl.
  - now rewrite String.eqb_refl.
  - destruct (k' =? k) eqn:E; simpl.
    + now rewrite String.eqb_refl.
    + now rewrite E.
Qed.

Lemma dict_get_set_ne (k k' : string) (v : V) (d : list (string * V)) :
  k' <> k -> dict.get k' (dict.set k v d) = dict.get k' d.
Proof.
  intros Hne. induction d as [|[k0 v0] d IH]; simpl.
  - destruct (k =? k') eqn:E; [apply String.eqb_eq in E; congruence | reflexivity].
  - destruct (k0 =? k) eqn:E; simpl.
    + apply String.eqb_eq in E. subst k0.
      destruct (k =? k') eqn:E'; [apply String.eqb_eq in E'; congruence | reflexivity].
    + destruct (k0 =? k'); [reflexivity | exact IH].
Qed.



End Dict.

Lemma os_mem_In (key : string) (env : os.environ) :
  os.mem key env = true -> In key (List.map fst env).
Proof.
  unfold os.mem. induction env as [|[k v] env IH]; simpl; [discriminate|].
  destruct (k =? key) eqn:E; simpl.
  - apply String.eqb_eq in E. auto.
  - auto.
Qed.

(** [scan_var], in terms of [suffix_of] and [descriptor]. *)
Lemma scan_var_eq (lower : string -> string) (env : os.environ) (models : list (string * models_config.model))
    (var : string) :
  models_config.scan_var lower env models var =
  if models_config.required_vars_exist env (suffix_of var)
  then dict.set (lower (suffix_of var)) (descriptor env var) models
  else models.
Proof. reflexivity. Qed.

Lemma scan_registered (lower : string -> string) (env : os.environ) (vars : list string) :
  forall models,
    (forall var, In var vars -> In var (models_config.deployment_vars env)) ->
    (forall k m, dict.get k models = Some m -> registered lower env k m) ->
    forall k m,
      dict.get k (List.fold_left (models_config.scan_var lower env) vars models) = Some m ->
      registered lower env k m.
Proof.
  induction vars as [|var vars IH]; intros models Hsub Hinv k m; simpl.
  - apply Hinv.
  - apply IH.
    + intros u Hu. apply Hsub. now right.
    + intros k' m'. rewrite scan_var_eq.
      destruct (models_config.required_vars_exist env (suffix_of var)) eqn:Hreq;
        [|apply Hinv].
      destruct (String.eqb_spec k' (lower (suffix_of var))) as [->|Hne].
      * rewrite dict_get_set_eq. intros [= <-].
        exists var. repeat split; try assumption. apply Hsub. now left.
      * rewrite dict_get_set_ne by assumption. apply Hinv.
Qed.

Lemma discovered_registered (lower : string -> string) (env : os.environ) (k : string) (m : models_config.model) :
  dict.get k (models_config._discover_models lower env) = Some m -> registered lower env k m.
Proof.
  unfold models_config._discover_models.
  apply scan_registered; [auto | intros k' m'; discriminate].
Qed.




(** Once a key is in the dictionary the scan keeps it. *)
Lemma scan_keeps_keys (lower : string -> string) (env : os.environ) (k : string) (vars : list string) :
  forall models,
    dict.get k models <> None ->
    dict.get k (List.fold_left (models_config.scan_var lower env) vars models) <> None.
Proof.
  induction vars as [|var vars IH]; intros models Hk; simpl; [assumption|].
  apply IH. rewrite scan_var_eq.
  destruct (models_config.required_vars_exist env (suffix_of var)); [|assumption].
  destruct (String.eqb_spec k (lower (suffix_of var))) as [->|Hne].
  - rewrite dict_get_set_eq. discriminate.
  - now rewrite dict_get_set_ne.
Qed.

Lemma required_vars_each (env : os.environ) (sfx : string) :
  models_config.required_vars_exist env sfx = true ->
  forall logical key, In (logical, key) (credential_keys sfx) -> os.mem key env = true.
Proof.
  unfold models_config.required_vars_exist, models_config.required_keys. simpl.
  intros H. repeat (apply andb_true_iff in H as [?H H]).
  intros logical key Hin. unfold credential_keys in Hin. simpl in Hin.
  repeat destruct Hin as [Hin|Hin]; try contradiction;
    injection Hin as _ <-; assumption.
Qed.

Lemma deployment_var_in_environ (env : os.environ) (var : string) :
  In var (models_config.deployment_vars env) ->
  In var (List.map fst env) /\ str.startswith var "DEPLOYMENT_NAME_" = true.
Proof.
  unfold models_config.deployment_vars. intros H. apply filter_In in H. exact H.
Qed.

(** C10.  For every model id of the discovered registry: the id is the
    lowercased stored suffix; the stored suffix is the text that the scan
    took, letter case untouched, from a [DEPLOYMENT_NAME_] variable of the
    environment, and [DEPLOYMENT_NAME_<suffix>] with this very suffix is a
    variable of the environment; [get_env_variable_keys] returns the five
    names built from the stored suffix, and each of them was present in the
    environment that was scanned. *)
Theorem registry_invariant (lower : string -> string) (env : os.environ) (model_id : string)
    (m : models_config.model) :
  dict.get model_id (models_config._discover_models lower env) = Some m ->
  model_id = lower (models_config.suffix m)
  /\ (exists var,
        In var (List.map fst env)
        /\ str.startswith var "DEPLOYMENT_NAME_" = true
        /\ models_config.suffix m = str.replace var "DEPLOYMENT_NAME_" "")
  /\ os.mem ("DEPLOYMENT_NAME_" ++ models_config.suffix m) env = true
  /\ models_config.get_env_variable_keys (models_config._discover_models lower env) model_id
     = inr [("endpoint", "ENDPOINT_" ++ models_config.suffix m);
            ("api_key", "API_KEY_" ++ models_config.suffix m);
            ("api_version", "API_VERSION_" ++ models_config.suffix m);
            ("deployment_name", "DEPLOYMENT_NAME_" ++ models_config.suffix m);
            ("api_type", "API_TYPE_" ++ models_config.suffix m)]
  /\ (forall logical key,
        In (logical, key)
          [("endpoint", "ENDPOINT_" ++ models_config.suffix m);
           ("api_key", "API_KEY_" ++ models_config.suffix m);
           ("api_version", "API_VERSION_" ++ models_config.suffix m);
           ("deployment_name", "DEPLOYMENT_NAME_" ++ models_config.suffix m);
           ("api_type", "API_TYPE_" ++ models_config.suffix m)] ->
        os.mem key env = true).
Proof.
  intros Hget. destruct (discovered_registered lower env model_id m Hget)
    as (var & Hin & Hreq & Hid & Hm).
  subst m. cbn [descriptor models_config.suffix].
  destruct (deployment_var_in_environ env var Hin) as [Hkey Hpre].
  split; [assumption|].
  split; [exists var; auto|].
  split.
  { apply (required_vars_each env (suffix_of var) Hreq "deployment_name").
    unfold credential_keys. simpl. auto. }
  split.
  { unfold models_config.get_env_variable_keys, models_config.get_model_info.
    rewrite Hget. reflexivity. }
  intros logical key Hk. exact (required_vars_each env (suffix_of var) Hreq logical key Hk).
Qed.

Lemma registry_invariant_witness :
  str.lower_ascii "Gpt4o" = "gpt4o"
  /\ os.mem "API_KEY_Gpt4o"
       [("ENDPOINT_Gpt4o", "https://example"); ("API_KEY_Gpt4o", "k");
        ("API_VERSION_Gpt4o", "2024-10-01"); ("DEPLOYMENT_NAME_Gpt4o", "gpt-4o-realtime");
        ("API_TYPE_Gpt4o", "azure")] = true.
Proof.
  pose proof (registry_invariant str.lower_ascii
                [("ENDPOINT_Gpt4o", "https://example"); ("API_KEY_Gpt4o", "k");
                 ("API_VERSION_Gpt4o", "2024-10-01");
                 ("DEPLOYMENT_NAME_Gpt4o", "gpt-4o-realtime");
                 ("API_TYPE_Gpt4o", "azure")]
                "gpt4o"
                {| models_config.name := "gpt-4o-realtime"; models_config.suffix := "Gpt4o" |}
                eq_refl) as (Hid & _ & _ & _ & Hkeys).
  split.
  - symmetry. exact Hid.
  - apply (Hkeys "api_key"). simpl. auto.
Defined.



(** *** The suffix of a variable

    The scan takes the suffix with [var.replace('DEPLOYMENT_NAME_', '')],
    which removes every occurrence of the prefix, not only the leading
    one. *)

Lemma replace_leading_prefix (x : string) :
  suffix_of ("DEPLOYMENT_NAME_" ++ x) = str.replace x "DEPLOYMENT_NAME_" "".
Proof. destruct x; reflexivity. Qed.

Lemma startswith_leading_prefix (x : string) :
  str.startswith ("DEPLOYMENT_NAME_" ++ x) "DEPLOYMENT_NAME_" = true.
Proof. destruct x; reflexivity. Qed.

Lemma replace_absent (old x : string) :
  str.contains x old = false -> str.replace x old "" = x.
Proof.
  unfold str.replace. induction x as [|c x IH]; [reflexivity|].
  cbn [str.contains str.replace_from]. intros H.
  apply orb_false_iff in H as [Hp Hc]. rewrite Hp, (IH Hc). reflexivity.
Qed.

(** Where the suffix does not hold the prefix again, it is what follows
    the prefix. *)
Lemma suffix_of_plain (x : string) :
  str.contains x "DEPLOYMENT_NAME_" = false -> suffix_of ("DEPLOYMENT_NAME_" ++ x) = x.
Proof. intros H. rewrite replace_leading_prefix. now apply replace_absent. Qed.

(** Outside the reach of the repeated prefix the scan is complete: a
    suffix with its five variables is in the registry under its lowercased
    form ... *)
Lemma discover_includes_complete_suffix (lower : string -> string) (env : os.environ) (x : string) :
  str.contains x "DEPLOYMENT_NAME_" = false ->
  models_config.required_vars_exist env x = true ->
  dict.get (lower x) (models_config._discover_models lower env) <> None.
Proof.
  intros Hplain Hreq.
  assert (Hin : In ("DEPLOYMENT_NAME_" ++ x) (models_config.deployment_vars env)).
  { unfold models_config.deployment_vars. apply filter_In. split.
    - apply os_mem_In.
      apply (required_vars_each env x Hreq "deployment_name").
      unfold credential_keys. simpl. auto.
    - apply startswith_leading_prefix. }
  apply in_split in Hin as (l1 & l2 & Hsplit).
  unfold models_config._discover_models. rewrite Hsplit, fold_left_app. simpl.
  apply scan_keeps_keys. rewrite scan_var_eq, (suffix_of_plain x Hplain), Hreq.
  rewrite dict_get_set_eq. discriminate.
Qed.

(** ... and a suffix that lacks one of them is the stored suffix of no
    item, whatever the environment. *)
Lemma discover_excludes_incomplete_suffix (lower : string -> string) (env : os.environ) (x : string) :
  models_config.required_vars_exist env x = false ->
  forall model_id m,
    dict.get model_id (models_config._discover_models lower env) = Some m ->
    models_config.suffix m <> x.
Proof.
  intros Hreq model_id m Hget.
  destruct (discovered_registered lower env model_id m Hget) as (var & _ & Hreq' & _ & ->).
  cbn [descriptor models_config.suffix]. congruence.
Qed.

(** The display name of an item: the value of [MODEL_<suffix>] when there
    is one, otherwise the value of the variable that the scan was on. *)
Lemma display_name_of_registered (lower : string -> string) (env : os.environ) (model_id : string)
    (m : models_config.model) :
  dict.get model_id (models_config._discover_models lower env) = Some m ->
  (forall v, os.get ("MODEL_" ++ models_config.suffix m) env = Some v ->
             models_config.name m = v)
  /\ (os.get ("MODEL_" ++ models_config.suffix m) env = None ->
      exists var,
        In var (models_config.deployment_vars env)
        /\ suffix_of var = models_config.suffix m
        /\ models_config.name m = os.get_default var "" env).
Proof.
  intros Hget.
  destruct (discovered_registered lower env model_id m Hget) as (var & Hin & _ & _ & ->).
  cbn [descriptor models_config.suffix models_config.name]. unfold os.get_default at 1 3.
  split.
  - intros v Hv. now rewrite Hv.
  - intros Hnone. rewrite Hnone. exists var. auto.
Qed.

(** C3, at the failing input.  The five variables of the suffix
    [DEPLOYMENT_NAME_A] are all present, yet the registry is empty: the scan
    computes the suffix [A] for [DEPLOYMENT_NAME_DEPLOYMENT_NAME_A], looks
    for [ENDPOINT_A] and its companions, and drops the group. *)
Lemma nested_prefix_suffix_is_dropped :
  models_config.required_vars_exist
    [("ENDPOINT_DEPLOYMENT_NAME_A", "e"); ("API_KEY_DEPLOYMENT_NAME_A", "k");
     ("API_VERSION_DEPLOYMENT_NAME_A", "v"); ("DEPLOYMENT_NAME_DEPLOYMENT_NAME_A", "dep");
     ("API_TYPE_DEPLOYMENT_NAME_A", "t")] "DEPLOYMENT_NAME_A" = true
  /\ suffix_of "DEPLOYMENT_NAME_DEPLOYMENT_NAME_A" = "A"
  /\ models_config._discover_models str.lower_ascii
       [("ENDPOINT_DEPLOYMENT_NAME_A", "e"); ("API_KEY_DEPLOYMENT_NAME_A", "k");
        ("API_VERSION_DEPLOYMENT_NAME_A", "v"); ("DEPLOYMENT_NAME_DEPLOYMENT_NAME_A", "dep");
        ("API_TYPE_DEPLOYMENT_NAME_A", "t")] = []
  /\ dict.get (str.lower_ascii "DEPLOYMENT_NAME_A")
       (models_config._discover_models str.lower_ascii
          [("ENDPOINT_DEPLOYMENT_NAME_A", "e"); ("API_KEY_DEPLOYMENT_NAME_A", "k");
           ("API_VERSION_DEPLOYMENT_NAME_A", "v");
           ("DEPLOYMENT_NAME_DEPLOYMENT_NAME_A", "dep");
           ("API_TYPE_DEPLOYMENT_NAME_A", "t")]) = None.
Proof. repeat split. Qed.

(** C6, at the failing input.  The model [a] is discovered with the stored
    suffix [A], whose five variables are present; there is no [MODEL_A];
    the value of [DEPLOYMENT_NAME_A] is [dep1]; but the display name is
    [dep2], the value of [DEPLOYMENT_NAME_DEPLOYMENT_NAME_A], for which the
    scan computes the same suffix [A]. *)
Lemma nested_prefix_overrides_display_name :
  models_config._discover_models str.lower_ascii
    [("ENDPOINT_A", "e"); ("API_KEY_A", "k"); ("API_VERSION_A", "v");
     ("DEPLOYMENT_NAME_A", "dep1"); ("API_TYPE_A", "t");
     ("DEPLOYMENT_NAME_DEPLOYMENT_NAME_A", "dep2")]
  = [("a", {| models_config.name := "dep2"; models_config.suffix := "A" |})]
  /\ models_config.required_vars_exist
       [("ENDPOINT_A", "e"); ("API_KEY_A", "k"); ("API_VERSION_A", "v");
        ("DEPLOYMENT_NAME_A", "dep1"); ("API_TYPE_A", "t");
        ("DEPLOYMENT_NAME_DEPLOYMENT_NAME_A", "dep2")] "A" = true
  /\ os.get "MODEL_A"
       [("ENDPOINT_A", "e"); ("API_KEY_A", "k"); ("API_VERSION_A", "v");
        ("DEPLOYMENT_NAME_A", "dep1"); ("API_TYPE_A", "t");
        ("DEPLOYMENT_NAME_DEPLOYMENT_NAME_A", "dep2")] = None
  /\ os.get "DEPLOYMENT_NAME_A"
       [("ENDPOINT_A", "e"); ("API_KEY_A", "k"); ("API_VERSION_A", "v");
        ("DEPLOYMENT_NAME_A", "dep1"); ("API_TYPE_A", "t");
        ("DEPLOYMENT_NAME_DEPLOYMENT_NAME_A", "dep2")] = Some "dep1".
Proof. repeat split. Qed.

(** The override and the default of the display name, on the environment
    of the specification's example. *)
Example display_name_override :
  models_config._discover_models str.lower_ascii
    [("ENDPOINT_FOO", "e"); ("API_KEY_FOO", "k"); ("API_VERSION_FOO", "v");
     ("DEPLOYMENT_NAME_FOO", "dep1"); ("API_TYPE_FOO", "t"); ("MODEL_FOO", "Friendly Name")]
  = [("foo", {| models_config.name := "Friendly Name"; models_config.suffix := "FOO" |})]
  /\ models_config._discover_models str.lower_ascii
       [("ENDPOINT_FOO", "e"); ("API_KEY_FOO", "k"); ("API_VERSION_FOO", "v");
        ("DEPLOYMENT_NAME_FOO", "dep1"); ("API_TYPE_FOO", "t")]
     = [("foo", {| models_config.name := "dep1"; models_config.suffix := "FOO" |})].
Proof. split; reflexivity. Qed.

(** [os.environ[var]] in the scan never raises [KeyError]: the variable
    comes from the iteration over the environment. *)
Lemma scanned_var_has_value (env : os.environ) (var : string) :
  In var (models_config.deployment_vars env) -> exists v, os.get var env = Some v.
Proof.
  intros H. apply deployment_var_in_environ in H as [H _].
  induction env as [|[k v] env IH]; simpl in *; [contradiction|].
  destruct (String.eqb_spec k var) as [_|Hne]; [eauto|].
  destruct H as [H|H]; [contradiction | auto].
Qed.

(** ** Further properties of the receive loop *)

Lemma base64_from_errors (s : string) :
  forall quad_pos leftchar pads bin_data e,
    base64.a2b_base64_from s quad_pos leftchar pads bin_data = inl e -> e = BinasciiError.
Proof.
  induction s as [|c s IH]; intros quad_pos leftchar pads bin_data e;
    cbn [base64.a2b_base64_from].
  - destruct quad_pos; [discriminate | now intros [= <-]].
  - destruct (Ascii.eqb c "="%char).
    + destruct (2 <=? quad_pos)%nat; [|apply IH].
      destruct (4 <=? quad_pos + S pads)%nat; [discriminate | apply IH].
    + destruct (base64.table_a2b_base64 c); [|apply IH].
      destruct quad_pos as [|[|[|q]]]; apply IH.
Qed.

Lemma b64decode_errors (s : string) (e : exception) :
  base64.b64decode s = inl e -> e = BinasciiError \/ e = ValueError.
Proof.
  unfold base64.b64decode, base64.a2b_base64.
  destruct (forallb base64.is_ascii (list_ascii_of_string s)).
  - intros H. left. eapply base64_from_errors; eassumption.
  - intros [= <-]. now right.
Qed.

Lemma int16_samples_app (n : nat) :
  forall a b, List.length a = 2 * n ->
    np.int16_samples (a ++ b) = (np.int16_samples a ++ np.int16_samples b)%list.
Proof.
  induction n as [|n IH]; intros a b Hlen.
  - destruct a; [reflexivity | discriminate].
  - destruct a as [|lo [|hi a]]; simpl in Hlen; try lia.
    simpl. rewrite IH by lia. reflexivity.
Qed.

Lemma int16_samples_app_even (a b : list byte) :
  Nat.even (List.length a) = true ->
  np.int16_samples (a ++ b) = (np.int16_samples a ++ np.int16_samples b)%list.
Proof.
  intros H. apply Nat.even_spec in H as [n Hn]. now apply (int16_samples_app n).
Qed.

Lemma markdown_bodies_app (a b : list event) :
  markdown_bodies (a ++ b) = (markdown_bodies a ++ markdown_bodies b)%list.
Proof.
  induction a as [|e a IH]; [reflexivity|]. destruct e; simpl; now rewrite IH.
Qed.

Lemma written_samples_app (a b : list event) :
  written_samples (a ++ b) = (written_samples a ++ written_samples b)%list.
Proof.
  induction a as [|e a IH]; [reflexivity|].
  destruct e; simpl; rewrite IH; try reflexivity. now rewrite app_assoc.
Qed.

(** The calls of one message that passes. *)
Lemma app_on_message_passes_calls (m : message) (s : locals) :
  passes m = true ->
  exists evs,
    app.on_message m s = (evs, inr (extended s m))
    /\ markdown_bodies evs = running_transcripts (transcript s) [m]
    /\ written_samples evs = np.int16_samples (delta_audio m)
    /\ Nat.even (List.length (delta_audio m)) = true.
Proof.
  intros Hp. destruct (passes_inv m Hp) as (Hd & He & Hw).
  unfold app.on_message, extended. rewrite Hd, He.
  unfold delta_text, delta_audio, whole_samples, running_transcripts in *.
  destruct (is_transcript_delta m) eqn:Ht.
  - unfold is_transcript_delta in Ht. rewrite Ht.
    assert (Ha : is_audio_delta m = false).
    { unfold is_audio_delta. apply String.eqb_eq in Ht. now rewrite Ht. }
    rewrite Ha, app_nil_r. eexists. repeat split.
  - unfold is_transcript_delta in Ht. rewrite Ht.
    destruct (is_audio_delta m) eqn:Ha; unfold is_audio_delta in Ha; rewrite Ha.
    + simpl in Hw. destruct (base64.b64decode (delta m)) as [e|buffer]; [discriminate|].
      unfold app.play_audio_chunk, np.frombuffer_int16. rewrite Hw.
      rewrite append_empty_r. eexists. repeat split; try assumption.
      simpl. now rewrite app_nil_r.
    + rewrite app_nil_r, append_empty_r. destruct s. eexists. repeat split.
Qed.

Lemma audio_bytes_cons (m : message) (msgs : list message) :
  audio_bytes (m :: msgs) = (delta_audio m ++ audio_bytes msgs)%list.
Proof. reflexivity. Qed.

Lemma transcript_text_cons (m : message) (msgs : list message) :
  transcript_text (m :: msgs) = delta_text m ++ transcript_text msgs.
Proof. reflexivity. Qed.

Lemma running_transcripts_cons (so_far : string) (m : message) (msgs : list message) :
  running_transcripts so_far (m :: msgs)
  = (running_transcripts so_far [m] ++ running_transcripts (so_far ++ delta_text m) msgs)%list.
Proof.
  unfold delta_text. simpl. destruct (is_transcript_delta m); simpl.
  - reflexivity.
  - now rewrite append_empty_r.
Qed.

(** What the observer and the playback stream get during a run of
    messages that pass. *)
Lemma app_loop_passes_observed (msgs : list message) :
  forall (s : locals) (tail : list recv_result),
    done s = false ->
    List.forallb passes msgs = true ->
    let r := app.receive_loop (List.map Delivers msgs ++ tail) s in
    let r' := app.receive_loop tail
                {| audio_buffer := (audio_buffer s ++ audio_bytes msgs)%list;
                   transcript := transcript s ++ transcript_text msgs;
                   done := false |} in
    markdown_bodies (calls r)
      = (running_transcripts (transcript s) msgs ++ markdown_bodies (calls r'))%list
    /\ written_samples (calls r)
      = (np.int16_samples (audio_bytes msgs) ++ written_samples (calls r'))%list
    /\ Nat.even (List.length (audio_bytes msgs)) = true.
Proof.
  unfold app.receive_loop.
  induction msgs as [|m msgs IH]; intros s tail Hs Hall.
  - simpl. unfold audio_bytes, transcript_text; simpl.
    rewrite app_nil_r, append_empty_r. destruct s as [a t d]; simpl in *; subst d. auto.
  - simpl in Hall. apply andb_true_iff in Hall as [Hm Hall].
    cbn [List.map app]. rewrite while_not_done_step by assumption.
    destruct (app_on_message_passes_calls m s Hm) as (evs & Hon & Hmd & Hws & Hev).
    rewrite Hon. cbn [calls].
    destruct (IH (extended s m) tail Hs Hall) as (IH1 & IH2 & IH3).
    cbn [extended audio_buffer transcript] in IH1, IH2.
    rewrite audio_bytes_cons, transcript_text_cons.
    rewrite <- app_assoc, append_assoc in IH1, IH2.
    split; [|split].
    + change (client_recv :: evs ++ ?x)%list with ([client_recv] ++ evs ++ x)%list.
      rewrite !markdown_bodies_app, IH1, Hmd.
      rewrite (running_transcripts_cons (transcript s) m msgs).
      cbn [markdown_bodies app]. now rewrite <- app_assoc.
    + change (client_recv :: evs ++ ?x)%list with ([client_recv] ++ evs ++ x)%list.
      rewrite !written_samples_app, IH2, Hws.
      rewrite (int16_samples_app_even _ _ Hev).
      cbn [written_samples app]. now rewrite <- app_assoc.
    + rewrite length_app, Nat.even_add, Hev, IH3. reflexivity.
Qed.

Lemma streamlit_on_message_passes_calls (m : message) (s : locals) :
  passes m = true ->
  exists evs,
    streamlit.on_message m s = (evs, inr (extended s m))
    /\ markdown_bodies evs = running_transcripts (transcript s) [m]
    /\ written_samples evs = np.int16_samples (delta_audio m)
    /\ Nat.even (List.length (delta_audio m)) = true.
Proof.
  intros Hp. destruct (passes_inv m Hp) as (_ & He & _).
  rewrite (streamlit_on_message_app m s He). now apply app_on_message_passes_calls.
Qed.

Lemma streamlit_loop_passes_observed (msgs : list message) :
  forall (s : locals) (tail : list recv_result),
    done s = false ->
    List.forallb passes msgs = true ->
    let r := streamlit.receive_loop (List.map Delivers msgs ++ tail) s in
    let r' := streamlit.receive_loop tail
                {| audio_buffer := (audio_buffer s ++ audio_bytes msgs)%list;
                   transcript := transcript s ++ transcript_text msgs;
                   done := false |} in
    markdown_bodies (calls r)
      = (running_transcripts (transcript s) msgs ++ markdown_bodies (calls r'))%list
    /\ written_samples (calls r)
      = (np.int16_samples (audio_bytes msgs) ++ written_samples (calls r'))%list
    /\ Nat.even (List.length (audio_bytes msgs)) = true.
Proof.
  unfold streamlit.receive_loop.
  induction msgs as [|m msgs IH]; intros s tail Hs Hall.
  - simpl. unfold audio_bytes, transcript_text; simpl.
    rewrite app_nil_r, append_empty_r. destruct s as [a t d]; simpl in *; subst d. auto.
  - simpl in Hall. apply andb_true_iff in Hall as [Hm Hall].
    cbn [List.map app]. rewrite while_not_done_step by assumption.
    destruct (streamlit_on_message_passes_calls m s Hm) as (evs & Hon & Hmd & Hws & Hev).
    rewrite Hon. cbn [calls].
    destruct (IH (extended s m) tail Hs Hall) as (IH1 & IH2 & IH3).
    cbn [extended audio_buffer transcript] in IH1, IH2.
    rewrite audio_bytes_cons, transcript_text_cons.
    rewrite <- app_assoc, append_assoc in IH1, IH2.
    split; [|split].
    + change (client_recv :: evs ++ ?x)%list with ([client_recv] ++ evs ++ x)%list.
      rewrite !markdown_bodies_app, IH1, Hmd.
      rewrite (running_transcripts_cons (transcript s) m msgs).
      cbn [markdown_bodies app]. now rewrite <- app_assoc.
    + change (client_recv :: evs ++ ?x)%list with ([client_recv] ++ evs ++ x)%list.
      rewrite !written_samples_app, IH2, Hws.
      rewrite (int16_samples_app_even _ _ Hev).
      cbn [written_samples app]. now rewrite <- app_assoc.
    + rewrite length_app, Nat.even_add, Hev, IH3. reflexivity.
Qed.

(** X1.  A failure of the transport is passed on as it is: when [recv]
    raises after messages that all passed, [process_llm_response] raises
    the same exception, returns nothing of what it gathered, has called
    [recv] once per message and once more, leaves the rest of the session
    unread, and has stopped and closed the stream. *)
Theorem recv_failure_is_reraised (msgs : list message) (info : string)
    (rest : list recv_result) :
  List.forallb passes msgs = true ->
  result (app.process_llm_response (List.map Delivers msgs ++ Fails info :: rest))
    = Raises (RecvError info)
  /\ unread (app.process_llm_response (List.map Delivers msgs ++ Fails info :: rest)) = rest
  /\ recv_count (calls (app.process_llm_response
                          (List.map Delivers msgs ++ Fails info :: rest)))
     = S (List.length msgs)
  /\ List.filter is_release
       (calls (app.process_llm_response (List.map Delivers msgs ++ Fails info :: rest)))
     = [OutputStream_stop; OutputStream_close].
Proof.
  intros Hp.
  destruct (while_not_done_steady app.on_message passes app_on_message_passes msgs
              initial_locals (Fails info :: rest) eq_refl Hp)
    as (body & Hc & Hu & Hr & Hn & Hl & He).
  fold app.receive_loop in Hc, Hu, Hr. simpl in Hc, Hu, Hr.
  unfold app.process_llm_response. rewrite Hr, Hc, Hu. cbn [result unread calls].
  repeat split.
  - unfold recv_count in *. simpl.
    rewrite !List.filter_app, !length_app, Hn. simpl. lia.
  - simpl. rewrite !List.filter_app.
    rewrite (filter_none is_release sink_lifecycle body release_is_lifecycle Hl).
    reflexivity.
Qed.

Lemma recv_failure_is_reraised_witness :
  result (app.process_llm_response
            [Delivers (transcript_delta "Hel"); Fails "connection reset";
             Delivers response_done])
  = Raises (RecvError "connection reset").
Proof.
  exact (proj1 (recv_failure_is_reraised [transcript_delta "Hel"] "connection reset"
                  [Delivers response_done] eq_refl)).
Defined.

(** X2.  A session that delivers messages that pass and then nothing more
    (no [response.done], no [error], no failure) leaves
    [process_llm_response] waiting in [recv] for ever: it does not return,
    and the playback stream is neither stopped nor closed. *)
Theorem silent_session_blocks (msgs : list message) :
  List.forallb passes msgs = true ->
  result (app.process_llm_response (List.map Delivers msgs)) = Blocks
  /\ recv_count (calls (app.process_llm_response (List.map Delivers msgs)))
     = S (List.length msgs)
  /\ List.filter is_release (calls (app.process_llm_response (List.map Delivers msgs)))
     = [].
Proof.
  intros Hp.
  destruct (while_not_done_steady app.on_message passes app_on_message_passes msgs
              initial_locals [] eq_refl Hp)
    as (body & Hc & Hu & Hr & Hn & Hl & He).
  fold app.receive_loop in Hc, Hu, Hr. simpl in Hc, Hu, Hr.
  rewrite app_nil_r in Hc, Hu, Hr.
  unfold app.process_llm_response. rewrite Hr, Hc. cbn [result unread calls].
  repeat split.
  - unfold recv_count in *. simpl.
    rewrite !List.filter_app, !length_app, Hn. simpl. lia.
  - simpl. rewrite !List.filter_app.
    rewrite (filter_none is_release sink_lifecycle body release_is_lifecycle Hl).
    reflexivity.
Qed.

Lemma silent_session_blocks_witness :
  result (app.process_llm_response
            [Delivers (transcript_delta "Hel"); Delivers (audio_delta "AAEC/w==")])
  = Blocks.
Proof.
  exact (proj1 (silent_session_blocks
                  [transcript_delta "Hel"; audio_delta "AAEC/w=="] eq_refl)).
Defined.

(** X3.  An audio delta whose payload cannot be decoded, or decodes to an
    odd number of bytes, ends [process_llm_response] with [binascii.Error]
    or [ValueError]: the chunk is neither played nor kept, what was gathered
    is not returned, the messages after it stay unread, and the stream is
    stopped and closed. *)
Theorem bad_audio_delta_aborts (msgs : list message) (bad : message)
    (rest : list recv_result) :
  List.forallb passes msgs = true ->
  is_audio_delta bad = true ->
  whole_samples bad = false ->
  exists e,
    (e = BinasciiError \/ e = ValueError)
    /\ result (app.process_llm_response
                 (List.map Delivers msgs ++ Delivers bad :: rest)) = Raises e
    /\ unread (app.process_llm_response
                 (List.map Delivers msgs ++ Delivers bad :: rest)) = rest
    /\ written_samples (calls (app.process_llm_response
                                 (List.map Delivers msgs ++ Delivers bad :: rest)))
       = np.int16_samples (audio_bytes msgs)
    /\ List.filter is_release
         (calls (app.process_llm_response
                   (List.map Delivers msgs ++ Delivers bad :: rest)))
       = [OutputStream_stop; OutputStream_close].
Proof.
  intros Hp Haudio Hbad.
  destruct (while_not_done_steady app.on_message passes app_on_message_passes msgs
              initial_locals (Delivers bad :: rest) eq_refl Hp)
    as (body & Hc & Hu & Hr & Hn & Hl & He).
  destruct (app_loop_passes_observed msgs initial_locals (Delivers bad :: rest)
              eq_refl Hp) as (_ & Hws & _).
  fold app.receive_loop in Hc, Hu, Hr.
  cbn [initial_locals audio_buffer transcript app] in Hc, Hu, Hr, Hws.
  unfold app.receive_loop in Hc, Hu, Hr, Hws.
  rewrite while_not_done_step in Hc, Hu, Hr, Hws by reflexivity.
  assert (Hon : exists e, (e = BinasciiError \/ e = ValueError)
                  /\ forall s, app.on_message bad s = ([], inl e)).
  { unfold whole_samples in Hbad. rewrite Haudio in Hbad. simpl in Hbad.
    unfold is_audio_delta in Haudio. apply String.eqb_eq in Haudio.
    destruct (base64.b64decode (delta bad)) as [e|buffer] eqn:Hdec.
    - exists e. split; [eapply b64decode_errors; eassumption|].
      intros s. unfold app.on_message. rewrite Haudio, Hdec. reflexivity.
    - exists ValueError. split; [now right|].
      intros s. unfold app.on_message. rewrite Haudio, Hdec.
      unfold app.play_audio_chunk, np.frombuffer_int16. rewrite Hbad. reflexivity. }
  destruct Hon as (e & Hkind & Hon).
  rewrite Hon in Hc, Hu, Hr, Hws. cbn [calls unread result] in Hc, Hu, Hr, Hws.
  fold app.receive_loop in Hc, Hu, Hr, Hws.
  exists e. split; [assumption|].
  unfold app.process_llm_response. rewrite Hr, Hc, Hu. cbn [result unread calls].
  repeat split.
  - rewrite <- Hc, !written_samples_app, Hws. simpl. now rewrite !app_nil_r.
  - simpl. rewrite !List.filter_app.
    rewrite (filter_none is_release sink_lifecycle body release_is_lifecycle Hl).
    reflexivity.
Qed.

Lemma bad_audio_delta_aborts_witness :
  exists e,
    result (app.process_llm_response
              [Delivers (audio_delta "AAEC/w=="); Delivers (audio_delta "A");
               Delivers response_done]) = Raises e
    /\ written_samples
         (calls (app.process_llm_response
                   [Delivers (audio_delta "AAEC/w=="); Delivers (audio_delta "A");
                    Delivers response_done]))
       = [256%Z; (-254)%Z].
Proof.
  destruct (bad_audio_delta_aborts [audio_delta "AAEC/w=="] (audio_delta "A")
              [Delivers response_done] eq_refl eq_refl eq_refl)
    as (e & _ & Hr & _ & Hw & _).
  exists e. split; [exact Hr | exact Hw].
Defined.

Lemma last_change_default {A : Type} (l : list A) (d d' : A) :
  l <> [] -> List.last l d = List.last l d'.
Proof.
  induction l as [|x l IH]; [congruence|]. intros _.
  destruct l as [|y l]; [reflexivity|].
  change (List.last (y :: l) d = List.last (y :: l) d'). apply IH. discriminate.
Qed.

Lemma last_cons {A : Type} (x : A) (l : list A) (d : A) :
  List.last (x :: l) d = List.last l x.
Proof.
  destruct l as [|y l]; [reflexivity|].
  change (List.last (y :: l) d = List.last (y :: l) x).
  apply last_change_default. discriminate.
Qed.

Lemma last_running_transcripts (msgs : list message) :
  forall so_far,
    List.last (running_transcripts so_far msgs) so_far = so_far ++ transcript_text msgs.
Proof.
  induction msgs as [|m msgs IH]; intros so_far.
  - unfold transcript_text. simpl. now rewrite append_empty_r.
  - rewrite transcript_text_cons. unfold delta_text. cbn [running_transcripts].
    destruct (is_transcript_delta m).
    + rewrite last_cons, <- append_assoc. apply IH.
    + rewrite append_empty_l. apply IH.
Qed.

(** The result of a run that ends on a terminal message: in
    [streamlit.py] for both terminal messages, in [app.py] for
    [response.done]. *)
Lemma streamlit_run_terminal (msgs : list message) (fin : message) (rest : list recv_result) :
  List.forallb passes msgs = true ->
  is_terminal fin = true ->
  result (streamlit.process_llm_response (session msgs fin rest))
    = Returns (transcript_text msgs, audio_bytes msgs)
  /\ unread (streamlit.process_llm_response (session msgs fin rest)) = rest.
Proof.
  intros Hp Hterm. unfold session.
  destruct (while_not_done_steady streamlit.on_message passes streamlit_on_message_passes
              msgs initial_locals (Delivers fin :: rest) eq_refl Hp)
    as (body & _ & Hu & Hr & _).
  fold streamlit.receive_loop in Hu, Hr.
  unfold streamlit.process_llm_response.
  unfold is_terminal in Hterm. apply orb_true_iff in Hterm as [Ht|Ht];
    apply String.eqb_eq in Ht.
  - rewrite streamlit_loop_response_done in Hu, Hr by (reflexivity || assumption).
    rewrite Hr, Hu. split; reflexivity.
  - rewrite streamlit_loop_error in Hu, Hr by (reflexivity || assumption).
    rewrite Hr, Hu. split; reflexivity.
Qed.

Lemma app_run_done (msgs : list message) (fin : message) (rest : list recv_result) :
  List.forallb passes msgs = true ->
  type fin = "response.done" ->
  result (app.process_llm_response (session msgs fin rest))
    = Returns (transcript_text msgs, audio_bytes msgs)
  /\ unread (app.process_llm_response (session msgs fin rest)) = rest.
Proof.
  intros Hp Ht. unfold session.
  destruct (while_not_done_steady app.on_message passes app_on_message_passes msgs
              initial_locals (Delivers fin :: rest) eq_refl Hp)
    as (body & _ & Hu & Hr & _).
  fold app.receive_loop in Hu, Hr.
  unfold app.process_llm_response.
  rewrite app_loop_response_done in Hu, Hr by (reflexivity || assumption).
  rewrite Hr, Hu. split; reflexivity.
Qed.

(** What the placeholder and the playback stream get during a run that
    ends on a terminal message. *)
Lemma streamlit_run_observed (msgs : list message) (fin : message) (rest : list recv_result) :
  List.forallb passes msgs = true ->
  is_terminal fin = true ->
  markdown_bodies (calls (streamlit.process_llm_response (session msgs fin rest)))
    = running_transcripts "" msgs
  /\ written_samples (calls (streamlit.process_llm_response (session msgs fin rest)))
    = np.int16_samples (audio_bytes msgs)
  /\ Nat.even (List.length (audio_bytes msgs)) = true.
Proof.
  intros Hp Hterm. unfold session.
  destruct (streamlit_loop_passes_observed msgs initial_locals (Delivers fin :: rest)
              eq_refl Hp) as (Hm & Hw & Hev).
  cbn [initial_locals audio_buffer transcript app] in Hm, Hw.
  unfold streamlit.process_llm_response.
  unfold is_terminal in Hterm. apply orb_true_iff in Hterm as [Ht|Ht];
    apply String.eqb_eq in Ht.
  - rewrite streamlit_loop_response_done in Hm, Hw by (reflexivity || assumption).
    cbn [calls] in Hm, Hw.
    destruct (result (streamlit.receive_loop _ _)); cbn [calls];
      rewrite ?markdown_bodies_app, ?written_samples_app, Hm, Hw; simpl;
      rewrite ?app_nil_r; auto.
  - rewrite streamlit_loop_error in Hm, Hw by (reflexivity || assumption).
    cbn [calls] in Hm, Hw.
    destruct (result (streamlit.receive_loop _ _)); cbn [calls];
      rewrite ?markdown_bodies_app, ?written_samples_app, Hm, Hw; simpl;
      rewrite ?app_nil_r; auto.
Qed.

Lemma app_run_observed (msgs : list message) (fin : message) (rest : list recv_result) :
  List.forallb passes msgs = true ->
  is_terminal fin = true ->
  markdown_bodies (calls (app.process_llm_response (session msgs fin rest)))
    = running_transcripts "" msgs
  /\ written_samples (calls (app.process_llm_response (session msgs fin rest)))
    = np.int16_samples (audio_bytes msgs)
  /\ Nat.even (List.length (audio_bytes msgs)) = true.
Proof.
  intros Hp Hterm. unfold session.
  destruct (app_loop_passes_observed msgs initial_locals (Delivers fin :: rest)
              eq_refl Hp) as (Hm & Hw & Hev).
  cbn [initial_locals audio_buffer transcript app] in Hm, Hw.
  unfold app.process_llm_response.
  unfold is_terminal in Hterm. apply orb_true_iff in Hterm as [Ht|Ht];
    apply String.eqb_eq in Ht.
  - rewrite app_loop_response_done in Hm, Hw by (reflexivity || assumption).
    cbn [calls] in Hm, Hw.
    destruct (result (app.receive_loop _ _)); cbn [calls];
      rewrite ?markdown_bodies_app, ?written_samples_app, Hm, Hw; simpl;
      rewrite ?app_nil_r; auto.
  - rewrite app_loop_error in Hm, Hw by (reflexivity || assumption).
    cbn [calls] in Hm, Hw.
    destruct (result (app.receive_loop _ _)); cbn [calls];
      rewrite ?markdown_bodies_app, ?written_samples_app, Hm, Hw; simpl;
      rewrite ?app_nil_r; auto.
Qed.


(** X4.  The transcript is shown as it grows: during a run that ends on a
    terminal message, the placeholder is given, after each transcript
    delta, the whole transcript received so far, nothing else.  So the
    last text it shows is the transcript that [process_llm_response]
    returns: in [streamlit.py] after both terminal messages, in [app.py]
    after [response.done]. *)
Theorem transcript_is_shown_incrementally (msgs : list message) (fin : message)
    (rest : list recv_result) :
  List.forallb passes msgs = true ->
  is_terminal fin = true ->
  markdown_bodies (calls (streamlit.process_llm_response (session msgs fin rest)))
  = running_transcripts "" msgs
  /\ List.last (markdown_bodies
                 (calls (streamlit.process_llm_response (session msgs fin rest)))) ""
     = transcript_text msgs
  /\ result (streamlit.process_llm_response (session msgs fin rest))
     = Returns (transcript_text msgs, audio_bytes msgs)
  /\ markdown_bodies (calls (app.process_llm_response (session msgs fin rest)))
     = running_transcripts "" msgs
  /\ List.last (markdown_bodies
                 (calls (app.process_llm_response (session msgs fin rest)))) ""
     = transcript_text msgs
  /\ (type fin = "response.done" ->
      result (app.process_llm_response (session msgs fin rest))
      = Returns (transcript_text msgs, audio_bytes msgs)).
Proof.
  intros Hp Hterm.
  destruct (streamlit_run_terminal msgs fin rest Hp Hterm) as (Hres & _).
  destruct (streamlit_run_observed msgs fin rest Hp Hterm) as (Hmd & _).
  destruct (app_run_observed msgs fin rest Hp Hterm) as (Hmd' & _).
  split; [exact Hmd|]. split.
  { rewrite Hmd. apply (last_running_transcripts msgs ""). }
  split; [exact Hres|]. split; [exact Hmd'|]. split.
  { rewrite Hmd'. apply (last_running_transcripts msgs ""). }
  intros Ht. exact (proj1 (app_run_done msgs fin rest Hp Ht)).
Qed.

Lemma transcript_is_shown_incrementally_witness :
  markdown_bodies
    (calls (streamlit.process_llm_response
              (session [transcript_delta "Hel"; audio_delta "AAEC/w=="; transcript_delta "lo"]
                       (error_message "quota exceeded") [])))
  = ["Hel"; "Hello"]
  /\ markdown_bodies
       (calls (app.process_llm_response
                 (session [transcript_delta "Hel"; audio_delta "AAEC/w==";
                           transcript_delta "lo"]
                          response_done [])))
     = ["Hel"; "Hello"].
Proof.
  split.
  - exact (proj1 (transcript_is_shown_incrementally
                    [transcript_delta "Hel"; audio_delta "AAEC/w=="; transcript_delta "lo"]
                    (error_message "quota exceeded") [] eq_refl eq_refl)).
  - exact (proj1 (proj2 (proj2 (proj2 (transcript_is_shown_incrementally
                    [transcript_delta "Hel"; audio_delta "AAEC/w=="; transcript_delta "lo"]
                    response_done [] eq_refl eq_refl))))).
Defined.



Lemma script_loop_error (e : message) (s : locals) (rest : list recv_result) :
  done s = false -> type e = "error" ->
  script.receive_loop (Delivers e :: rest) s =
    Run [client_recv; print (error e)] rest
      (Returns {| audio_buffer := audio_buffer s; transcript := transcript s; done := true |}).
Proof.
  intros Hs Ht. unfold script.receive_loop.
  rewrite while_not_done_step by assumption.
  unfold script.on_message. rewrite Ht. simpl.
  rewrite while_not_done_done by reflexivity. reflexivity.
Qed.

(** The loop of [script.py] on messages that are not terminal and whose
    audio payloads decode, followed by a terminal message. *)
Lemma script_run_terminal (msgs : list message) (fin : message) (rest : list recv_result) :
  List.forallb (fun m => negb (is_terminal m) && decodable m) msgs = true ->
  is_terminal fin = true ->
  result (script.receive_loop (List.map Delivers msgs ++ Delivers fin :: rest)
            initial_locals)
    = Returns {| audio_buffer := audio_bytes msgs; transcript := transcript_text msgs;
                 done := true |}
  /\ unread (script.receive_loop (List.map Delivers msgs ++ Delivers fin :: rest)
               initial_locals)
    = rest.
Proof.
  intros Hp Hterm.
  destruct (while_not_done_steady script.on_message _ script_on_message_passes msgs
              initial_locals (Delivers fin :: rest) eq_refl Hp)
    as (body & _ & Hu & Hr & _).
  fold script.receive_loop in Hu, Hr.
  unfold is_terminal in Hterm. apply orb_true_iff in Hterm as [Ht|Ht];
    apply String.eqb_eq in Ht.
  - rewrite script_loop_response_done in Hu, Hr by (reflexivity || assumption).
    rewrite Hr, Hu. split; reflexivity.
  - rewrite script_loop_error in Hu, Hr by (reflexivity || assumption).
    rewrite Hr, Hu. split; reflexivity.
Qed.

(** X6.  The loop of [script.py] has no playback, so it takes every audio
    payload that decodes, whole samples or not: on messages that are not
    terminal, followed by [response.done] or [error], it ends with the
    concatenated transcript and the concatenated decoded audio, and reads
    nothing after the terminal message. *)
Theorem script_loop_takes_any_decodable_audio (msgs : list message) (fin : message)
    (rest : list recv_result) :
  List.forallb (fun m => negb (is_terminal m) && decodable m) msgs = true ->
  is_terminal fin = true ->
  result (script.receive_loop (List.map Delivers msgs ++ Delivers fin :: rest)
            initial_locals)
    = Returns {| audio_buffer := audio_bytes msgs; transcript := transcript_text msgs;
                 done := true |}
  /\ unread (script.receive_loop (List.map Delivers msgs ++ Delivers fin :: rest)
               initial_locals)
    = rest
  /\ recv_count (calls (script.receive_loop
                          (List.map Delivers msgs ++ Delivers fin :: rest) initial_locals))
    = S (List.length msgs).
Proof.
  intros Hp Hterm.
  destruct (script_run_terminal msgs fin rest Hp Hterm) as [Hr Hu].
  split; [exact Hr|]. split; [exact Hu|].
  destruct (while_not_done_steady script.on_message _ script_on_message_passes msgs
              initial_locals (Delivers fin :: rest) eq_refl Hp)
    as (body & Hc & _ & _ & Hn & _).
  fold script.receive_loop in Hc. rewrite Hc, recv_count_app, Hn.
  unfold is_terminal in Hterm. apply orb_true_iff in Hterm as [Ht|Ht];
    apply String.eqb_eq in Ht.
  - rewrite script_loop_response_done by (reflexivity || assumption).
    unfold recv_count. simpl. lia.
  - rewrite script_loop_error by (reflexivity || assumption).
    unfold recv_count. simpl. lia.
Qed.

Lemma script_loop_takes_any_decodable_audio_witness :
  result (script.receive_loop
            [Delivers (audio_delta "QQ=="); Delivers (transcript_delta "Hi");
             Delivers (audio_delta "QkM="); Delivers (error_message "quota exceeded")]
            initial_locals)
  = Returns {| audio_buffer := [Byte.x41; Byte.x42; Byte.x43]; transcript := "Hi";
               done := true |}.
Proof.
  exact (proj1 (script_loop_takes_any_decodable_audio
                  [audio_delta "QQ=="; transcript_delta "Hi"; audio_delta "QkM="]
                  (error_message "quota exceeded") [] eq_refl eq_refl)).
Defined.

Lemma Z_of_byte_bounds (b : byte) : (0 <= struct.Z_of_byte b < 256)%Z.
Proof.
  unfold struct.Z_of_byte, N_of_byte.
  pose proof (N_ascii_bounded (ascii_of_byte b)). lia.
Qed.

Lemma int16_samples_spec (n : nat) :
  forall buffer, List.length buffer = 2 * n ->
    List.length (np.int16_samples buffer) = n
    /\ Forall (fun z => (-32768 <= z <= 32767)%Z) (np.int16_samples buffer).
Proof.
  induction n as [|n IH]; intros buffer Hlen.
  - destruct buffer; [split; [reflexivity | constructor] | discriminate].
  - destruct buffer as [|lo [|hi buffer]]; simpl in Hlen; try lia.
    destruct (IH buffer ltac:(lia)) as [Hl Hf].
    cbn [np.int16_samples]. split; [simpl; now rewrite Hl|].
    constructor; [|exact Hf].
    unfold np.int16_of_bytes.
    pose proof (Z_of_byte_bounds lo). pose proof (Z_of_byte_bounds hi).
    change (Z.of_N (N_of_byte lo)) with (struct.Z_of_byte lo).
    change (Z.of_N (N_of_byte hi)) with (struct.Z_of_byte hi).
    destruct (Z.ltb_spec (struct.Z_of_byte lo + 256 * struct.Z_of_byte hi) 32768); lia.
Qed.

(** X7.  [play_audio_chunk] writes a buffer of even size to the stream as
    half as many samples, each within the range of a signed 16-bit
    integer; for a buffer of odd size it raises [ValueError] and writes
    nothing. *)
Theorem play_audio_chunk_samples (buffer : list byte) :
  (Nat.even (List.length buffer) = true ->
   exists audio_chunk,
     app.play_audio_chunk buffer = ([OutputStream_write audio_chunk], inr tt)
     /\ List.length audio_chunk * 2 = List.length buffer
     /\ Forall (fun z => (-32768 <= z <= 32767)%Z) audio_chunk)
  /\ (Nat.even (List.length buffer) = false ->
      app.play_audio_chunk buffer = ([], inl ValueError)).
Proof.
  unfold app.play_audio_chunk, np.frombuffer_int16. split; intros H; rewrite H.
  - apply Nat.even_spec in H as [n Hn].
    destruct (int16_samples_spec n buffer Hn) as [Hl Hf].
    eexists. split; [reflexivity|]. split; [lia | exact Hf].
  - reflexivity.
Qed.

Lemma play_audio_chunk_samples_witness :
  (exists audio_chunk,
     app.play_audio_chunk [Byte.x00; Byte.x80; Byte.xff; Byte.x7f]
       = ([OutputStream_write audio_chunk], inr tt)
     /\ List.length audio_chunk * 2 = 4
     /\ Forall (fun z => (-32768 <= z <= 32767)%Z) audio_chunk)
  /\ app.play_audio_chunk [Byte.x00; Byte.x80; Byte.xff] = ([], inl ValueError).
Proof.
  split.
  - exact (proj1 (play_audio_chunk_samples [Byte.x00; Byte.x80; Byte.xff; Byte.x7f])
             eq_refl).
  - exact (proj2 (play_audio_chunk_samples [Byte.x00; Byte.x80; Byte.xff]) eq_refl).
Defined.

(** ** Further properties of the files *)

(** X8.  In [streamlit.py] the temporary file does not outlive the
    response: for a non-empty buffer that fits the container and a
    temporary name that is not empty, [create_audio_file] writes the WAV
    file under that name, [display_audio_response] offers exactly its bytes
    for download and then removes it; no other file is created or changed,
    so with a fresh temporary name the files are afterwards what they were
    before.  In [app.py] the display of the same file stops at the look-up
    of [st.subheader]: nothing is offered. *)
Theorem temporary_file_is_removed (first : byte) (more : list byte) (w : world) :
  (36 + Z.of_nat (List.length (first :: more)) <= 4294967295)%Z ->
  next_temp_name w <> "" ->
  exists w1 shown w2,
    streamlit.create_audio_file (first :: more) w = inr (Some (next_temp_name w), w1)
    /\ streamlit.display_audio_response (Some (next_temp_name w)) w1 = (shown, inr w2)
    /\ In (st_download_button "Download Audio" (wav_bytes (first :: more))
             "ai_response.wav" "audio/wav") shown
    /\ files w2 = delete (next_temp_name w) (files w)
    /\ (files w !! next_temp_name w = None -> files w2 = files w)
    /\ app.create_audio_file (first :: more) w = inr (Some (next_temp_name w), w1)
    /\ app.display_audio_response (Some (next_temp_name w)) w1
       = ([], inl (AttributeError "subheader")).
Proof.
  intros Hn Hne.
  assert (Hc : app.create_audio_file (first :: more) w
               = inr (Some (next_temp_name w),
                      write_file (next_temp_name w) (wav_bytes (first :: more)) w)).
  { unfold app.create_audio_file.
    rewrite app_save_to_wav_file_writes by assumption.
    cbn [bind fst snd]. unfold write_file; cbn [files now next_temp_name].
    now rewrite insert_insert_eq. }
  exists (write_file (next_temp_name w) (wav_bytes (first :: more)) w).
  exists [st_subheader "Audio Response";
          st_audio (wav_bytes (first :: more)) "audio/wav";
          st_download_button "Download Audio" (wav_bytes (first :: more))
            "ai_response.wav" "audio/wav"].
  exists (unlink (next_temp_name w)
            (write_file (next_temp_name w) (wav_bytes (first :: more)) w)).
  split; [rewrite streamlit_create_audio_file_app; exact Hc|].
  unfold streamlit.display_audio_response, app.display_audio_response.
  destruct (next_temp_name w) as [|c path] eqn:Hp; [congruence|].
  unfold write_file at 1; cbn [files]. rewrite lookup_insert_eq.
  split; [reflexivity|]. split; [simpl; auto|].
  unfold unlink, write_file; cbn [files].
  split; [apply delete_insert_eq|].
  split; [intros Hfresh; now apply delete_insert_id|].
  split; [exact Hc | reflexivity].
Qed.

Lemma temporary_file_is_removed_witness :
  exists w1 shown w2,
    streamlit.create_audio_file [Byte.x01; Byte.x02]
      {| files := ∅; now := "20240101_120000"; next_temp_name := "/tmp/tmpabc.wav" |}
    = inr (Some "/tmp/tmpabc.wav", w1)
    /\ streamlit.display_audio_response (Some "/tmp/tmpabc.wav") w1 = (shown, inr w2)
    /\ files w2 = ∅.
Proof.
  destruct (temporary_file_is_removed Byte.x01 [Byte.x02]
              {| files := ∅; now := "20240101_120000";
                 next_temp_name := "/tmp/tmpabc.wav" |})
    as (w1 & shown & w2 & Hc & Hd & _ & _ & Hf & _).
  - simpl. lia.
  - discriminate.
  - exists w1, shown, w2. split; [exact Hc|]. split; [exact Hd|].
    apply Hf. reflexivity.
Defined.

(** X9.  The default file name is made from the clock alone, to the
    second: two calls of [save_to_wav_file] without a file name at the
    same reading of the clock write the same file,
    [audio_output_<timestamp>.wav], and the second call replaces what the
    first one wrote. *)
Theorem default_name_is_reused_within_a_second (first second : list byte) (w : world) :
  (36 + Z.of_nat (List.length first) <= 4294967295)%Z ->
  (36 + Z.of_nat (List.length second) <= 4294967295)%Z ->
  exists w1 w2,
    script.save_to_wav_file first None w
      = inr ("audio_output_" ++ now w ++ ".wav", w1)
    /\ script.save_to_wav_file second None w1
       = inr ("audio_output_" ++ now w ++ ".wav", w2)
    /\ files w1 !! ("audio_output_" ++ now w ++ ".wav") = Some (wav_bytes first)
    /\ files w2 !! ("audio_output_" ++ now w ++ ".wav") = Some (wav_bytes second)
    /\ files w2 = files (write_file ("audio_output_" ++ now w ++ ".wav")
                           (wav_bytes second) w).
Proof.
  intros H1 H2. eexists. eexists.
  split; [apply script_save_to_wav_file_writes; assumption|].
  rewrite script_save_to_wav_file_writes by assumption.
  unfold write_file; cbn [files now next_temp_name].
  split; [reflexivity|].
  split; [apply lookup_insert_eq|].
  split; [apply lookup_insert_eq|].
  apply insert_insert_eq.
Qed.

Lemma default_name_is_reused_within_a_second_witness :
  exists w1 w2,
    script.save_to_wav_file [Byte.x01; Byte.x02] None
      {| files := ∅; now := "20240101_120000"; next_temp_name := "/tmp/tmpabc.wav" |}
    = inr ("audio_output_20240101_120000.wav", w1)
    /\ script.save_to_wav_file [Byte.x03] None w1
       = inr ("audio_output_20240101_120000.wav", w2)
    /\ files w2 !! "audio_output_20240101_120000.wav" = Some (wav_bytes [Byte.x03]).
Proof.
  destruct (default_name_is_reused_within_a_second [Byte.x01; Byte.x02] [Byte.x03]
              {| files := ∅; now := "20240101_120000";
                 next_temp_name := "/tmp/tmpabc.wav" |})
    as (w1 & w2 & Ha & Hb & _ & Hf & _).
  - simpl. lia.
  - simpl. lia.
  - exists w1, w2. split; [exact Ha|]. split; [exact Hb | exact Hf].
Defined.

Lemma canonical_header_length (n : Z) : List.length (canonical_header n) = 44.
Proof. reflexivity. Qed.

(** X10.  The size fields of the file written by [save_to_wav_file] are
    exact, for even and for odd lengths alike: the file has 44 bytes more
    than the samples, starts with [RIFF], its RIFF size field is the size
    of the file less 8, and its data size field is the number of bytes of
    samples. *)
Theorem wav_size_fields_are_exact (samples : list byte) (filename : option string)
    (w : world) :
  (36 + Z.of_nat (List.length samples) <= 4294967295)%Z ->
  exists path w' content,
    app.save_to_wav_file samples filename w = inr (path, w')
    /\ files w' !! path = Some content
    /\ List.length content = 44 + List.length samples
    /\ firstn 4 content = bytes_of_string "RIFF"
    /\ struct.unpack_L (firstn 4 (skipn 4 content))
       = Some (Z.of_nat (List.length content) - 8)%Z
    /\ struct.unpack_L (firstn 4 (skipn 40 content))
       = Some (Z.of_nat (List.length samples)).
Proof.
  intros Hn. eexists. eexists. exists (wav_bytes samples).
  split; [apply app_save_to_wav_file_writes; assumption|].
  split; [unfold write_file; cbn [files]; apply lookup_insert_eq|].
  assert (Hlen : List.length (wav_bytes samples) = 44 + List.length samples).
  { unfold wav_bytes. now rewrite length_app, canonical_header_length. }
  split; [exact Hlen|]. split; [reflexivity|].
  rewrite Hlen. split.
  - change (firstn 4 (skipn 4 (wav_bytes samples)))
      with (struct.le32 (36 + Z.of_nat (List.length samples))).
    rewrite unpack_le32 by lia. f_equal. lia.
  - change (firstn 4 (skipn 40 (wav_bytes samples)))
      with (firstn 4 (struct.le32 (Z.of_nat (List.length samples)) ++ samples)).
    change (firstn 4 (struct.le32 (Z.of_nat (List.length samples)) ++ samples))
      with (struct.le32 (Z.of_nat (List.length samples)) ++ firstn 0 samples)%list.
    change (firstn 0 samples) with (@nil byte). rewrite app_nil_r.
    apply unpack_le32. lia.
Qed.

Lemma wav_size_fields_are_exact_witness :
  exists path w' content,
    app.save_to_wav_file [Byte.x01; Byte.x02; Byte.x03] (Some "out.wav")
      {| files := ∅; now := "20240101_120000"; next_temp_name := "/tmp/tmpabc.wav" |}
    = inr (path, w')
    /\ files w' !! path = Some content
    /\ List.length content = 47
    /\ struct.unpack_L (firstn 4 (skipn 40 content)) = Some 3%Z.
Proof.
  destruct (wav_size_fields_are_exact [Byte.x01; Byte.x02; Byte.x03] (Some "out.wav")
              {| files := ∅; now := "20240101_120000";
                 next_temp_name := "/tmp/tmpabc.wav" |})
    as (path & w' & content & Hs & Hf & Hl & _ & _ & Hd).
  - simpl. lia.
  - exists path, w', content. auto.
Defined.

(** ** Further properties of the model registry *)

Lemma dict_get_In_keys {V : Type} (k : string) (d : list (string * V)) :
  In k (List.map fst d) <-> dict.get k d <> None.
Proof.
  induction d as [|[k' v'] d IH]; simpl.
  - split; [intros [] | congruence].
  - destruct (String.eqb_spec k' k) as [->|Hne].
    + split; [discriminate | auto].
    + rewrite <- IH. split; [intros [H|H]; [congruence | exact H] | auto].
Qed.

Lemma model_names_keys (MODELS : list (string * models_config.model)) :
  List.map fst (models_config.get_model_names MODELS) = List.map fst MODELS.
Proof.
  unfold models_config.get_model_names. rewrite List.map_map. reflexivity.
Qed.

(** X11.  [get_model_info] and [get_env_variable_keys] succeed exactly on
    the ids that [get_model_names] lists, and raise [ValueError] on every
    other id. *)
Theorem unknown_model_id_raises (MODELS : list (string * models_config.model))
    (model_id : string) :
  (In model_id (List.map fst (models_config.get_model_names MODELS)) <->
   exists m, models_config.get_model_info MODELS model_id = inr m
             /\ models_config.get_env_variable_keys MODELS model_id
                = inr (credential_keys (models_config.suffix m)))
  /\ (~ In model_id (List.map fst (models_config.get_model_names MODELS)) <->
      models_config.get_model_info MODELS model_id = inl ValueError)
  /\ (~ In model_id (List.map fst (models_config.get_model_names MODELS)) <->
      models_config.get_env_variable_keys MODELS model_id = inl ValueError).
Proof.
  rewrite model_names_keys, dict_get_In_keys.
  unfold models_config.get_env_variable_keys, models_config.get_model_info.
  destruct (dict.get model_id MODELS) as [m|]; cbn [bind].
  - split; [|split].
    + split; [intros _; exists m; split; reflexivity | discriminate].
    + split; [intros H; exfalso; apply H; discriminate | discriminate].
    + split; [intros H; exfalso; apply H; discriminate | discriminate].
  - split; [|split].
    + split; [congruence | intros (m & H & _); discriminate].
    + split; [reflexivity | intros _ H; congruence].
    + split; [reflexivity | intros _ H; congruence].
Qed.

Lemma lower_char_idempotent (c : ascii) :
  str.lower_char (str.lower_char c) = str.lower_char c.
Proof.
  unfold str.lower_char. cbv zeta.
  destruct ((65 <=? N_of_ascii c) && (N_of_ascii c <=? 90))%N eqn:E; [|now rewrite E].
  apply andb_true_iff in E as [E1 E2]. apply N.leb_le in E1, E2.
  rewrite N_ascii_embedding by lia.
  destruct (N.leb_spec (N_of_ascii c + 32) 90) as [H|H]; [lia|].
  now rewrite andb_false_r.
Qed.

Lemma lower_ascii_idempotent (s : string) :
  str.lower_ascii (str.lower_ascii s) = str.lower_ascii s.
Proof.
  induction s as [|c s IH]; [reflexivity|].
  cbn [str.lower_ascii]. now rewrite lower_char_idempotent, IH.
Qed.

(** X12.  The ids of the discovered registry are in lower case, that is
    [str.lower] leaves them as they are (lowering a lowered string changes
    nothing, which is the assumption made on [lower]), and look-ups are
    exact: an id that [str.lower] changes, such as a suffix written with an
    upper-case letter as it is in the environment, is not found, and
    [get_model_info] and [get_env_variable_keys] raise [ValueError] for
    it. *)
Theorem model_ids_are_lower_case (lower : string -> string) (env : os.environ)
    (model_id : string) :
  (forall s, lower (lower s) = lower s) ->
  (forall m, dict.get model_id (models_config._discover_models lower env) = Some m ->
             lower model_id = model_id)
  /\ (lower model_id <> model_id ->
      models_config.get_model_info (models_config._discover_models lower env) model_id
        = inl ValueError
      /\ models_config.get_env_variable_keys (models_config._discover_models lower env)
           model_id
        = inl ValueError).
Proof.
  intros Hidem.
  assert (Hlow : forall m,
             dict.get model_id (models_config._discover_models lower env) = Some m ->
             lower model_id = model_id).
  { intros m Hget.
    destruct (discovered_registered lower env model_id m Hget) as (var & _ & _ & -> & _).
    apply Hidem. }
  split; [exact Hlow|].
  intros Hne.
  unfold models_config.get_env_variable_keys, models_config.get_model_info.
  destruct (dict.get model_id (models_config._discover_models lower env)) as [m|] eqn:Hget.
  - exfalso. apply Hne. now apply (Hlow m).
  - split; reflexivity.
Qed.

Lemma model_ids_are_lower_case_witness :
  models_config.get_model_info
    (models_config._discover_models str.lower_ascii
       [("ENDPOINT_FOO", "e"); ("API_KEY_FOO", "k"); ("API_VERSION_FOO", "v");
        ("DEPLOYMENT_NAME_FOO", "dep1"); ("API_TYPE_FOO", "t")]) "FOO"
  = inl ValueError
  /\ models_config.get_model_info
       (models_config._discover_models str.lower_ascii
          [("ENDPOINT_FOO", "e"); ("API_KEY_FOO", "k"); ("API_VERSION_FOO", "v");
           ("DEPLOYMENT_NAME_FOO", "dep1"); ("API_TYPE_FOO", "t")]) "foo"
     = inr {| models_config.name := "dep1"; models_config.suffix := "FOO" |}.
Proof.
  split; [|reflexivity].
  refine (proj1 (proj2 (model_ids_are_lower_case str.lower_ascii
            [("ENDPOINT_FOO", "e"); ("API_KEY_FOO", "k"); ("API_VERSION_FOO", "v");
             ("DEPLOYMENT_NAME_FOO", "dep1"); ("API_TYPE_FOO", "t")] "FOO"
            lower_ascii_idempotent) _)).
  discriminate.
Defined.

(** The registry is left as it is when no scanned group is complete. *)
Lemma scan_nothing_complete (lower : string -> string) (env : os.environ)
    (vars : list string) :
  forall models,
    (forall var, In var vars ->
       models_config.required_vars_exist env (suffix_of var) = false) ->
    List.fold_left (models_config.scan_var lower env) vars models = models.
Proof.
  induction vars as [|var vars IH]; intros models H; simpl; [reflexivity|].
  rewrite scan_var_eq, (H var) by (now left). apply IH. intros u Hu. apply H. now right.
Qed.

(** X18.  The registry is empty exactly when no [DEPLOYMENT_NAME_] variable
    of the environment has its group complete under the suffix that the
    scan computes for it; [get_model_names] then lists nothing and every
    look-up raises [ValueError].  Discovery itself raises nothing. *)
Theorem registry_is_empty_without_a_complete_group (lower : string -> string)
    (env : os.environ) :
  ((forall var, In var (models_config.deployment_vars env) ->
      models_config.required_vars_exist env (suffix_of var) = false)
   <-> models_config._discover_models lower env = [])
  /\ (models_config._discover_models lower env = [] ->
      models_config.get_model_names (models_config._discover_models lower env) = []
      /\ forall model_id,
           models_config.get_model_info (models_config._discover_models lower env) model_id
           = inl ValueError).
Proof.
  split.
  - split.
    + intros H. unfold models_config._discover_models. now apply scan_nothing_complete.
    + intros Hempty var Hin.
      destruct (models_config.required_vars_exist env (suffix_of var)) eqn:Hreq;
        [|reflexivity].
      exfalso. apply in_split in Hin as (l1 & l2 & Hsplit).
      assert (Hk : dict.get (lower (suffix_of var))
                     (models_config._discover_models lower env) <> None).
      { unfold models_config._discover_models. rewrite Hsplit, fold_left_app. simpl.
        apply scan_keeps_keys. rewrite scan_var_eq, Hreq, dict_get_set_eq. discriminate. }
      rewrite Hempty in Hk. now apply Hk.
  - intros ->. split; reflexivity.
Qed.

Lemma registry_is_empty_without_a_complete_group_witness :
  models_config._discover_models str.lower_ascii
    [("DEPLOYMENT_NAME_FOO", "dep1"); ("ENDPOINT_FOO", "e"); ("API_KEY_FOO", "k")] = []
  /\ models_config.required_vars_exist
       [("DEPLOYMENT_NAME_FOO", "dep1"); ("ENDPOINT_FOO", "e"); ("API_KEY_FOO", "k")]
       (suffix_of "DEPLOYMENT_NAME_FOO") = false.
Proof.
  split; [reflexivity|].
  apply (proj2 (proj1 (registry_is_empty_without_a_complete_group str.lower_ascii
           [("DEPLOYMENT_NAME_FOO", "dep1"); ("ENDPOINT_FOO", "e"); ("API_KEY_FOO", "k")]))
           eq_refl).
  simpl. auto.
Defined.

(** ** Properties of the callers *)




Lemma loops_agree_without_error_message (inbox : list recv_result) :
  forall s,
    (forall m, In (Delivers m) inbox -> type m <> "error") ->
    streamlit.receive_loop inbox s = app.receive_loop inbox s.
Proof.
  unfold streamlit.receive_loop, app.receive_loop.
  induction inbox as [|r inbox IH]; intros s Hno; [reflexivity|].
  cbn [while_not_done]. destruct (done s); [reflexivity|].
  destruct r as [m|info]; [|reflexivity].
  rewrite streamlit_on_message_app
    by (apply String.eqb_neq, Hno; now left).
  destruct (app.on_message m s) as [evs [e|s']]; [reflexivity|].
  rewrite IH by (intros m' Hm'; apply Hno; now right). reflexivity.
Qed.

(** X22.  [app.py] and [streamlit.py] differ in the [error] message only:
    on every session that delivers no [error] message the two
    [process_llm_response] make the same calls, leave the same messages
    unread and end the same way (the same return value, the same exception,
    or both waiting in [recv]); and [setup_audio_stream],
    [play_audio_chunk], [save_to_wav_file] and [create_audio_file] are the
    same functions in both files. *)
Theorem programs_agree_without_error_message (inbox : list recv_result) :
  (forall m, In (Delivers m) inbox -> type m <> "error") ->
  streamlit.process_llm_response inbox = app.process_llm_response inbox
  /\ streamlit.setup_audio_stream = app.setup_audio_stream
  /\ (forall buffer, streamlit.play_audio_chunk buffer = app.play_audio_chunk buffer)
  /\ (forall audio_data filename w,
        streamlit.save_to_wav_file audio_data filename w
        = app.save_to_wav_file audio_data filename w)
  /\ (forall audio_buffer w,
        streamlit.create_audio_file audio_buffer w = app.create_audio_file audio_buffer w).
Proof.
  intros Hno. split; [|repeat split].
  unfold streamlit.process_llm_response, app.process_llm_response.
  now rewrite (loops_agree_without_error_message inbox initial_locals Hno).
Qed.

Lemma programs_agree_without_error_message_witness :
  streamlit.process_llm_response
    [Delivers (transcript_delta "Hel"); Delivers (audio_delta "AAEC/w==");
     Delivers (audio_delta "QQ=="); Delivers response_done]
  = app.process_llm_response
      [Delivers (transcript_delta "Hel"); Delivers (audio_delta "AAEC/w==");
       Delivers (audio_delta "QQ=="); Delivers response_done]
  /\ result (app.process_llm_response
               [Delivers (transcript_delta "Hel"); Delivers (audio_delta "AAEC/w==");
                Delivers (audio_delta "QQ=="); Delivers response_done])
     = Raises ValueError.
Proof.
  split; [|reflexivity].
  apply (programs_agree_without_error_message
           [Delivers (transcript_delta "Hel"); Delivers (audio_delta "AAEC/w==");
            Delivers (audio_delta "QQ=="); Delivers response_done]).
  intros m Hin. simpl in Hin.
  destruct Hin as [H|[H|[H|[H|[]]]]]; injection H as <-; discriminate.
Defined.

(** [app()] of [streamlit.py] after a click on the button with a prompt. *)
Lemma streamlit_app_clicked (endpoint deployment api_key user_input : string)
    (inbox : list recv_result) (w : world) :
  user_input <> "" ->
  streamlit.app endpoint deployment api_key user_input true inbox w
  = let g := streamlit.generate_response endpoint deployment api_key user_input inbox w in
    let generated :=
      ((streamlit.create_ui ++ [st_button "Generate Response"])
       ++ [st_spinner "Generating response..."] ++ gen_calls g)%list in
    match gen_result g with
    | Finished (transcript, audio_file, w1) =>
        let shown := streamlit.display_audio_response audio_file w1 in
        let drawn :=
          (generated
           ++ [st_success "Response generated!"; inner (st_subheader "Text Response");
               st_markdown transcript]
           ++ List.map inner (fst shown))%list in
        match snd shown with
        | inl e => (drawn, Raised e)
        | inr w2 => (drawn, Finished w2)
        end
    | Raised e => (generated, Raised e)
    | Blocked => (generated, Blocked)
    end.
Proof. intros Hne. destruct user_input; [congruence | reflexivity]. Qed.

(** X23.  In [streamlit.py] the session is closed on every way out of
    [generate_response]: whatever the session delivers, the calls begin
    with the placeholder, the opening of the session with the configured
    endpoint, deployment and key, and the sending of the prompt; and unless
    [recv] never returns, the last call is the closing of the session,
    after the playback stream has been released, whether the function
    returns or raises. *)
Theorem session_is_closed_on_every_exit (endpoint deployment api_key prompt : string)
    (inbox : list recv_result) (w : world) :
  (exists later,
     gen_calls (streamlit.generate_response endpoint deployment api_key prompt inbox w)
     = st_empty :: RTLowLevelClient_enter endpoint deployment api_key
       :: client_send prompt :: later)
  /\ (gen_result (streamlit.generate_response endpoint deployment api_key prompt inbox w)
        <> Blocked ->
      exists body,
        gen_calls (streamlit.generate_response endpoint deployment api_key prompt inbox w)
        = ([st_empty; RTLowLevelClient_enter endpoint deployment api_key;
            client_send prompt]
           ++ List.map inner body
           ++ [inner OutputStream_stop; inner OutputStream_close;
               RTLowLevelClient_exit])%list).
Proof.
  unfold streamlit.generate_response.
  pose proof (streamlit_run_released inbox) as Hrel.
  destruct (result (streamlit.process_llm_response inbox)) as [[t a]|e|] eqn:Hr.
  - destruct (Hrel ltac:(discriminate)) as (body & Hc & _).
    assert (Hcalls : List.map inner (calls (streamlit.process_llm_response inbox))
                     = (List.map inner ([OutputStream_new 24000 1 "int16";
                                         OutputStream_start] ++ body)
                        ++ [inner OutputStream_stop; inner OutputStream_close])%list).
    { rewrite Hc, app_assoc, List.map_app. reflexivity. }
    destruct (streamlit.create_audio_file a w) as [e|[audio_file w']];
      cbn [gen_calls gen_result]; (split; [eexists; reflexivity|]); intros _;
      eexists; rewrite Hcalls, <- !app_assoc; reflexivity.
  - destruct (Hrel ltac:(discriminate)) as (body & Hc & _).
    assert (Hcalls : List.map inner (calls (streamlit.process_llm_response inbox))
                     = (List.map inner ([OutputStream_new 24000 1 "int16";
                                         OutputStream_start] ++ body)
                        ++ [inner OutputStream_stop; inner OutputStream_close])%list).
    { rewrite Hc, app_assoc, List.map_app. reflexivity. }
    cbn [gen_calls gen_result]. split; [eexists; reflexivity|]. intros _.
    eexists. rewrite Hcalls, <- !app_assoc. reflexivity.
  - cbn [gen_calls gen_result]. split; [eexists; reflexivity | congruence].
Qed.

Lemma session_is_closed_on_every_exit_witness :
  gen_calls (streamlit.generate_response "https://example" "dep1" "secret" "Hello"
               [Delivers (transcript_delta "Hi"); Fails "connection reset"]
               {| files := ∅; now := ""; next_temp_name := "t.wav" |})
  = [st_empty; RTLowLevelClient_enter "https://example" "dep1" "secret";
     client_send "Hello";
     inner (OutputStream_new 24000 1 "int16"); inner OutputStream_start;
     inner client_recv; inner (placeholder_markdown "Hi"); inner client_recv;
     inner OutputStream_stop; inner OutputStream_close; RTLowLevelClient_exit]
  /\ exists body,
       gen_calls (streamlit.generate_response "https://example" "dep1" "secret" "Hello"
                    [Delivers (transcript_delta "Hi"); Fails "connection reset"]
                    {| files := ∅; now := ""; next_temp_name := "t.wav" |})
       = ([st_empty; RTLowLevelClient_enter "https://example" "dep1" "secret";
           client_send "Hello"]
          ++ List.map inner body
          ++ [inner OutputStream_stop; inner OutputStream_close;
              RTLowLevelClient_exit])%list.
Proof.
  split; [reflexivity|].
  apply (proj2 (session_is_closed_on_every_exit "https://example" "dep1" "secret" "Hello"
                  [Delivers (transcript_delta "Hi"); Fails "connection reset"]
                  {| files := ∅; now := ""; next_temp_name := "t.wav" |})).
  discriminate.
Defined.



(** X21.  In [streamlit.py] a response without audio is shown as text
    only: when the session ends on a terminal message and no audio was
    received, [generate_response] creates no file and returns the
    transcript with no audio file, and [app] shows the success note and the
    transcript and nothing after them: no audio panel, no download
    button. *)
Theorem response_without_audio_shows_text_only
    (endpoint deployment api_key prompt : string) (msgs : list message) (fin : message)
    (rest : list recv_result) (w : world) :
  prompt <> "" ->
  List.forallb passes msgs = true ->
  is_terminal fin = true ->
  audio_bytes msgs = [] ->
  gen_result (streamlit.generate_response endpoint deployment api_key prompt
                (session msgs fin rest) w)
    = Finished (transcript_text msgs, None, w)
  /\ gen_unread (streamlit.generate_response endpoint deployment api_key prompt
                   (session msgs fin rest) w) = rest
  /\ streamlit.app endpoint deployment api_key prompt true (session msgs fin rest) w
     = ((streamlit.create_ui ++ [st_button "Generate Response"])
        ++ [st_spinner "Generating response..."]
        ++ gen_calls (streamlit.generate_response endpoint deployment api_key prompt
                        (session msgs fin rest) w)
        ++ [st_success "Response generated!"; inner (st_subheader "Text Response");
            st_markdown (transcript_text msgs)],
        Finished w)%list.
Proof.
  intros Hne Hp Hterm Hempty.
  destruct (streamlit_run_terminal msgs fin rest Hp Hterm) as [Hr Hu].
  rewrite (streamlit_app_clicked _ _ _ _ _ _ Hne). cbv zeta.
  unfold streamlit.generate_response. rewrite Hr, Hu, Hempty.
  cbn [streamlit.create_audio_file gen_result gen_calls gen_unread
       streamlit.display_audio_response fst snd List.map].
  rewrite !app_nil_r. repeat split.
Qed.

Lemma response_without_audio_shows_text_only_witness :
  streamlit.app "https://example" "dep1" "secret" "Hello" true
    [Delivers (transcript_delta "Hi"); Delivers response_done]
    {| files := ∅; now := ""; next_temp_name := "t.wav" |}
  = ([st_set_page_config; st_title;
      st_markdown (String "010"
                     "    Enter your prompt below and the AI will generate a spoken response."
                   ++ String "010" "    ");
      st_text_area "Enter your prompt:"; st_button "Generate Response";
      st_spinner "Generating response...";
      st_empty; RTLowLevelClient_enter "https://example" "dep1" "secret";
      client_send "Hello";
      inner (OutputStream_new 24000 1 "int16"); inner OutputStream_start;
      inner client_recv; inner (placeholder_markdown "Hi"); inner client_recv;
      inner OutputStream_stop; inner OutputStream_close; RTLowLevelClient_exit;
      st_success "Response generated!"; inner (st_subheader "Text Response");
      st_markdown "Hi"],
     Finished {| files := ∅; now := ""; next_temp_name := "t.wav" |}).
Proof.
  exact (proj2 (proj2 (response_without_audio_shows_text_only
           "https://example" "dep1" "secret" "Hello"
           [transcript_delta "Hi"] response_done []
           {| files := ∅; now := ""; next_temp_name := "t.wav" |}
           ltac:(discriminate) eq_refl eq_refl eq_refl))).
Defined.

Lemma script_report_saves (s : locals) (w : world) :
  (36 + Z.of_nat (List.length (audio_buffer s)) <= 4294967295)%Z ->
  exists evs w',
    script_main.report s w = (evs, inr w')
    /\ evs <> []
    /\ List.last evs (print "") = print (transcript s)
    /\ (audio_buffer s = [] ->
        w' = w /\ evs = [print "No audio data received.";
                         print (String "010" "Full transcript:"); print (transcript s)])
    /\ (audio_buffer s <> [] ->
        w' = write_file ("audio_output_" ++ now w ++ ".wav") (wav_bytes (audio_buffer s)) w).
Proof.
  intros Hn. unfold script_main.report.
  destruct (audio_buffer s) as [|first more] eqn:E.
  - do 2 eexists. split; [reflexivity|]. split; [discriminate|]. split; [reflexivity|].
    split; [auto | congruence].
  - rewrite script_save_to_wav_file_writes by assumption.
    do 2 eexists. split; [reflexivity|]. split; [discriminate|]. split; [reflexivity|].
    split; [discriminate | reflexivity].
Qed.

Lemma last_app_nonempty {A : Type} (a b : list A) (d : A) :
  b <> [] -> List.last (a ++ b) d = List.last b d.
Proof.
  intros Hb. induction a as [|x a IH]; [reflexivity|].
  simpl. destruct (a ++ b)%list eqn:E; [|exact IH].
  apply app_eq_nil in E. tauto.
Qed.

(** X19.  [script.py] keeps what it received: when the session ends with
    [response.done] or with an [error] message, after messages whose audio
    payloads decode, the script closes the session, writes the audio
    received so far (if there is any, and it fits the container) as a WAV
    file named after the clock, writes no file when there is none, and
    prints the transcript last. *)
Theorem script_saves_what_it_received (endpoint deployment api_key : string)
    (msgs : list message) (fin : message) (rest : list recv_result) (w : world) :
  List.forallb (fun m => negb (is_terminal m) && decodable m) msgs = true ->
  is_terminal fin = true ->
  (36 + Z.of_nat (List.length (audio_bytes msgs)) <= 4294967295)%Z ->
  exists cs w',
    script_main.text_in_audio_out endpoint deployment api_key
      (List.map Delivers msgs ++ Delivers fin :: rest) w
    = (cs, w', Finished tt)
    /\ In RTLowLevelClient_exit cs
    /\ List.last cs st_empty = inner (print (transcript_text msgs))
    /\ (audio_bytes msgs = [] ->
        w' = w /\ In (inner (print "No audio data received.")) cs)
    /\ (audio_bytes msgs <> [] ->
        w' = write_file ("audio_output_" ++ now w ++ ".wav")
               (wav_bytes (audio_bytes msgs)) w).
Proof.
  intros Hp Hterm Hn.
  destruct (script_run_terminal msgs fin rest Hp Hterm) as [Hr _].
  destruct (script_report_saves
              {| audio_buffer := audio_bytes msgs; transcript := transcript_text msgs;
                 done := true |} w Hn)
    as (evs & w' & Hrep & Hevs & Hlast & Hempty & Hfull).
  cbn [audio_buffer transcript] in *.
  unfold script_main.text_in_audio_out. rewrite Hr, Hrep.
  do 2 eexists. split; [reflexivity|].
  split; [|split; [|split]].
  - apply in_or_app. right. now left.
  - rewrite app_assoc, last_app_nonempty.
    + clear -Hlast Hevs. induction evs as [|x evs IH]; [congruence|].
      destruct evs as [|y evs]; [simpl in *; congruence|].
      change (List.last (List.map inner (y :: evs)) st_empty
              = inner (print (transcript_text msgs))).
      apply IH; [discriminate | exact Hlast].
    + destruct evs; [congruence | discriminate].
  - intros He. destruct (Hempty He) as [-> ->]. split; [reflexivity|].
    apply in_or_app. right. right. simpl. auto.
  - exact Hfull.
Qed.

Lemma script_saves_what_it_received_witness :
  exists cs,
    script_main.text_in_audio_out "https://example" "dep1" "secret"
      [Delivers (audio_delta "QQ=="); Delivers (transcript_delta "Hi");
       Delivers (error_message "quota exceeded")]
      {| files := ∅; now := "20240101_120000"; next_temp_name := "/tmp/tmpabc.wav" |}
    = (cs,
       write_file "audio_output_20240101_120000.wav" (wav_bytes [Byte.x41])
         {| files := ∅; now := "20240101_120000"; next_temp_name := "/tmp/tmpabc.wav" |},
       Finished tt).
Proof.
  destruct (script_saves_what_it_received "https://example" "dep1" "secret"
              [audio_delta "QQ=="; transcript_delta "Hi"] (error_message "quota exceeded")
              []
              {| files := ∅; now := "20240101_120000";
                 next_temp_name := "/tmp/tmpabc.wav" |} eq_refl eq_refl)
    as (cs & w' & Ht & _ & _ & _ & Hw).
  - simpl. lia.
  - exists cs. rewrite (Hw ltac:(discriminate)) in Ht. exact Ht.
Defined.

(** X20.  In [script.py] a failure of the transport loses the run: when
    [recv] raises after messages whose audio payloads decode, the session
    is closed, the exception leaves [text_in_audio_out], no file is written
    and nothing of the transcript or the audio gathered so far is saved or
    printed after the loop. *)
Theorem script_recv_failure_saves_nothing (endpoint deployment api_key : string)
    (msgs : list message) (info : string) (rest : list recv_result) (w : world) :
  List.forallb (fun m => negb (is_terminal m) && decodable m) msgs = true ->
  exists cs,
    script_main.text_in_audio_out endpoint deployment api_key
      (List.map Delivers msgs ++ Fails info :: rest) w
    = (cs, w, Raised (RecvError info))
    /\ List.last cs st_empty = RTLowLevelClient_exit.
Proof.
  intros Hp.
  destruct (while_not_done_steady script.on_message _ script_on_message_passes msgs
              initial_locals (Fails info :: rest) eq_refl Hp)
    as (body & _ & _ & Hr & _).
  fold script.receive_loop in Hr. simpl in Hr.
  unfold script_main.text_in_audio_out. rewrite Hr.
  eexists. split; [reflexivity|]. apply last_last.
Qed.

Lemma script_recv_failure_saves_nothing_witness :
  exists cs,
    script_main.text_in_audio_out "https://example" "dep1" "secret"
      [Delivers (audio_delta "QQ=="); Fails "connection reset"]
      {| files := ∅; now := "20240101_120000"; next_temp_name := "/tmp/tmpabc.wav" |}
    = (cs, {| files := ∅; now := "20240101_120000"; next_temp_name := "/tmp/tmpabc.wav" |},
       Raised (RecvError "connection reset")).
Proof.
  destruct (script_recv_failure_saves_nothing "https://example" "dep1" "secret"
              [audio_delta "QQ=="] "connection reset" []
              {| files := ∅; now := "20240101_120000";
                 next_temp_name := "/tmp/tmpabc.wav" |} eq_refl)
    as (cs & Ht & _).
  exists cs. exact Ht.
Defined.
